(** * A2A cloud deployment: the weather agent's task store and forecast tool

    A shallow embedding of

    - [weather_agent/db_task_store.py]: the class [DBTaskStore], a task
      store that keeps one row per task in the table [tasks] of an SQLite
      database file;
    - [weather_agent/weather_tools.py]: [format_forecast_period] and the
      tool [get_forecast].

    Python methods become computations in a state monad with exceptions.
    What the code reaches through imported libraries ([sqlite3], the
    [Task] class of [a2a.types], the [httpx] client) is modelled next to
    it: the database file as a list of rows, the task class and the HTTP
    server as section variables. *)

From Stdlib Require Import ZArith Lia Ascii.
From Stdlib Require Import Floats.SpecFloat.
From stdpp Require Import base option list strings pretty gmap.

(** ** Python computations: mutable state and exceptions *)

Module Py.

(** The exception classes the embedded code can raise. *)
Inductive exn : Type :=
| OperationalError (msg : string)   (* sqlite3.OperationalError *)
| ProgrammingError (msg : string)   (* sqlite3.ProgrammingError *)
| DatabaseError (msg : string)      (* sqlite3.DatabaseError *)
| ValidationError                   (* pydantic.ValidationError *)
| JSONDecodeError                   (* json.JSONDecodeError *)
| HTTPStatusError (msg : string)    (* httpx.HTTPStatusError, with its text *)
| RequestError (msg : string)       (* httpx.RequestError, with its text *)
| AttributeError
| TypeError.

Inductive result (A : Type) : Type :=
| Return (a : A)
| Raise (e : exn).
Arguments Return {A} a.
Arguments Raise {A} e.

(** A computation reads and updates the state; the state reached when an
    exception is raised is kept, as in Python. *)
Definition M (S A : Type) : Type := S → result A * S.

Definition ret {S A} (a : A) : M S A := λ s, (Return a, s).

Definition raise {S A} (e : exn) : M S A := λ s, (Raise e, s).

Definition bind {S A B} (m : M S A) (k : A → M S B) : M S B :=
  λ s, match m s with
       | (Return a, s') => k a s'
       | (Raise e, s') => (Raise e, s')
       end.

(** Run a computation on one component of a pair. *)
Definition on_snd {S1 S2 A} (m : M S2 A) : M (S1 * S2) A :=
  λ s, let '(r, s2) := m s.2 in (r, (s.1, s2)).

(** [try: body / except ...: handler / else: k]: the handler chooses the
    exceptions it catches; those of the continuation are not caught. *)
Definition try_except {S A B} (body : M S A)
    (handler : exn → option (M S B)) (k : A → M S B) : M S B :=
  λ s, match body s with
       | (Return a, s') => k a s'
       | (Raise e, s') =>
           match handler e with
           | Some h => h s'
           | None => (Raise e, s')
           end
       end.

(** The outcome and the final state of a run. *)
Definition outcome {S A} (m : M S A) (s : S) : result A := (m s).1.
Definition final {S A} (m : M S A) (s : S) : S := (m s).2.

#[export] Instance M_ret {S} : MRet (M S) := @ret S.
#[export] Instance M_bind {S} : MBind (M S) := λ A B k m, bind m k.

End Py.

Import Py.

(** ** The part of [sqlite3] the store uses

    A database holds named tables; the only table the store creates has
    the columns [(id TEXT PRIMARY KEY, task_data TEXT NOT NULL)], so a
    row is a pair of strings.  Rows are kept in a list, in insertion
    order: that at most one row carries a given [id] is a property the
    statements maintain, not one the representation imposes.

    What [sqlite3.connect(path)] opens depends on the path:

    - [":memory:"] and the empty string name no file: each connection
      gets a private database of its own, empty at first and discarded
      when the connection is closed;
    - a path with no file is created as an empty database;
    - a path that SQLite cannot open or create (its directory is missing,
      say) makes [connect] raise;
    - a file that is there is opened, whatever it is: a database, a
      database that may only be read, or a file that is no database at
      all; what is wrong with it shows at the first statement that needs
      it.

    Beside a database file [path], SQLite keeps its rollback journal in
    [path-journal]: a statement that writes creates that file and deletes
    it at the commit, so whatever file was there is gone afterwards.  A
    statement that only reads leaves the files as they are.  (A database
    file that was switched to write-ahead logging keeps other files; the
    store never switches, and the model has the default mode only.) *)

Module sqlite3.

Abbreviation row := (string * string)%type.

Abbreviation table := (list row).

Inductive file : Type :=
| Unopenable
| Database (tables : gmap string table)
| ReadOnly (tables : gmap string table)
| NotADatabase.

(** A connection object is a handle; the world records, for every handle
    handed out so far, the path it is open on, or [None] once closed, and
    for the handles open on a private database, that database. *)
Definition Connection : Type := nat.

Record world : Type := World {
  files : gmap string file;
  conns : list (option string);
  temps : gmap Connection (gmap string table)
}.

Definition cannot_open : exn :=
  OperationalError "unable to open database file".

Definition closed_database : exn :=
  ProgrammingError "Cannot operate on a closed database.".

Definition no_such_table (name : string) : exn :=
  OperationalError ("no such table: " +:+ name).

Definition readonly_database : exn :=
  OperationalError "attempt to write a readonly database".

Definition not_a_database : exn :=
  DatabaseError "file is not a database".

(** The names that stand for a private temporary database. *)
Definition is_temporary (path : string) : bool :=
  String.eqb path ":memory:" || String.eqb path "".

(** The rollback journal of a database file. *)
Definition journal (path : string) : string := path +:+ "-journal".

(** [sqlite3.connect(path)] *)
Definition connect (path : string) : M world Connection :=
  λ w,
    let c := length (conns w) in
    if is_temporary path then
      (Return c, World (files w) (conns w ++ [Some path]) (<[c := ∅]> (temps w)))
    else
      match files w !! path with
      | Some Unopenable => (Raise cannot_open, w)
      | Some _ => (Return c, World (files w) (conns w ++ [Some path]) (temps w))
      | None =>
          (Return c,
           World (<[path := Database ∅]> (files w)) (conns w ++ [Some path])
             (temps w))
      end.

(** [conn.close()]; closing twice is allowed. *)
Definition close (c : Connection) : M world unit :=
  λ w, (Return tt,
        World (files w) (<[c := None]> (conns w)) (base.delete c (temps w))).

(** What a statement does with the database it is run on: it only reads,
    and returns or raises; or it needs to write, and returns leaving the
    database changed. *)
Inductive effect (A : Type) : Type :=
| Reads (r : result A)
| Writes (a : A) (tables : gmap string table).
Arguments Reads {A} r.
Arguments Writes {A} a tables.

(** Run a statement on the database behind an open connection. *)
Definition on_database {A} (c : Connection)
    (stmt : gmap string table → effect A) : M world A :=
  λ w,
    match conns w !! c with
    | Some (Some path) =>
        if is_temporary path then
          match temps w !! c with
          | Some db =>
              match stmt db with
              | Reads r => (r, w)
              | Writes a db' =>
                  (Return a, World (files w) (conns w) (<[c := db']> (temps w)))
              end
          | None => (Raise closed_database, w)
          end
        else
          match files w !! path with
          | Some (Database db) =>
              match stmt db with
              | Reads r => (r, w)
              | Writes a db' =>
                  (Return a,
                   World
                     (<[path := Database db']>
                        (base.delete (journal path) (files w)))
                     (conns w) (temps w))
              end
          | Some (ReadOnly db) =>
              match stmt db with
              | Reads r => (r, w)
              | Writes _ _ => (Raise readonly_database, w)
              end
          | Some NotADatabase => (Raise not_a_database, w)
          | Some Unopenable | None => (Raise cannot_open, w)
          end
    | _ => (Raise closed_database, w)
    end.

(** [CREATE TABLE IF NOT EXISTS name
     (id TEXT PRIMARY KEY, task_data TEXT NOT NULL)]: nothing is written
    when the table is there. *)
Definition create_table_if_not_exists (c : Connection) (name : string) :
    M world unit :=
  on_database c (λ db,
    match db !! name with
    | Some _ => Reads (Return tt)
    | None => Writes tt (<[name := []]> db)
    end).

(** [INSERT OR REPLACE INTO name (id, task_data) VALUES (?, ?)]: the rows
    that conflict with the new one on the primary key are deleted, then
    the new row is inserted. *)
Definition insert_or_replace (c : Connection) (name id task_data : string) :
    M world unit :=
  on_database c (λ db,
    match db !! name with
    | Some rows =>
        Writes tt
          (<[name := filter (λ r : row, r.1 ≠ id) rows ++ [(id, task_data)]]> db)
    | None => Reads (Raise (no_such_table name))
    end).

(** [SELECT task_data FROM name WHERE id = ?]: the result rows, in table
    order, each a 1-tuple. *)
Definition select_task_data (c : Connection) (name id : string) :
    M world (list string) :=
  on_database c (λ db,
    match db !! name with
    | Some rows => Reads (Return ((filter (λ r : row, r.1 = id) rows).*2))
    | None => Reads (Raise (no_such_table name))
    end).

(** [DELETE FROM name WHERE id = ?] *)
Definition delete_where_id (c : Connection) (name id : string) : M world unit :=
  on_database c (λ db,
    match db !! name with
    | Some rows => Writes tt (<[name := filter (λ r : row, r.1 ≠ id) rows]> db)
    | None => Reads (Raise (no_such_table name))
    end).

(** [with conn: body]: commit when the body returns, roll back to the
    databases as they were when it raises. *)
Definition transaction {A} (body : M world A) : M world A :=
  λ w, match body w with
       | (Return a, w') => (Return a, w')
       | (Raise e, w') => (Raise e, World (files w) (conns w') (temps w))
       end.

(** [cursor.fetchone()] on a fresh result. *)
Definition fetchone (rows : list string) : option string := head rows.

End sqlite3.

(** ** [a2a.types.Task]

    The task class is imported, not defined in this repository: the store
    reads [task.id], serialises with [task.json()] and parses a stored
    text back with [Task.parse_raw], which raises a validation error on a
    text that is not a task ([None] here). *)

Class TaskClass (Task : Type) : Type := {
  Task_id : Task → string;
  Task_json : Task → string;
  Task_parse_raw : string → option Task
}.

(** ** [weather_agent/db_task_store.py]

    The methods of [DBTaskStore], in the order of the file.  [save], [get]
    and [delete] are coroutines without any [await]: a call runs to its
    end, so each is one computation.  [self._conn] is [None] or a
    connection; where a method uses it, the case [None] raises as Python
    does on [None], and is never reached after [connect] has returned. *)

Module db_task_store.

Import sqlite3.

Record DBTaskStore : Type := {
  db_path : string;
  _conn : option Connection
}.

(** The store object together with the file system it works on. *)
Definition state : Type := DBTaskStore * world.

Definition __init__ (db_path : string) : DBTaskStore :=
  {| db_path := db_path; _conn := None |}.

Definition get_self : M state DBTaskStore := λ σ, (Return σ.1, σ).

Definition set_conn (c : option Connection) : M state unit :=
  λ σ, (Return tt, ({| db_path := db_path σ.1; _conn := c |}, σ.2)).

Definition _create_table : M state unit :=
  self ← get_self;
  match _conn self with
  | Some c => on_snd (transaction (create_table_if_not_exists c "tasks"))
  | None => raise TypeError
  end.

Definition connect : M state unit :=
  self ← get_self;
  match _conn self with
  | None =>
      c ← on_snd (sqlite3.connect (db_path self));
      set_conn (Some c);;
      _create_table
  | Some _ => mret tt
  end.

Definition close : M state unit :=
  self ← get_self;
  match _conn self with
  | Some c => on_snd (sqlite3.close c);; set_conn None
  | None => mret tt
  end.

Definition delete (task_id : string) : M state unit :=
  connect;;
  self ← get_self;
  match _conn self with
  | Some c => on_snd (transaction (delete_where_id c "tasks" task_id))
  | None => raise TypeError
  end.

Section Task.

Context {Task : Type} `{TaskClass Task}.

Definition save (task : Task) : M state unit :=
  connect;;
  self ← get_self;
  match _conn self with
  | Some c =>
      on_snd (transaction
        (insert_or_replace c "tasks" (Task_id task) (Task_json task)))
  | None => raise TypeError
  end.

(** [if row:] holds for every row that [fetchone] returns, a tuple of one
    element. *)
Definition get (task_id : string) : M state (option Task) :=
  connect;;
  self ← get_self;
  match _conn self with
  | Some c =>
      rows ← on_snd (select_task_data c "tasks" task_id);
      match fetchone rows with
      | Some task_data =>
          match Task_parse_raw task_data with
          | Some task => mret (Some task)
          | None => raise ValidationError
          end
      | None => mret None
      end
  | None => raise AttributeError
  end.

(** Saving a list of tasks, one call after the other. *)
Fixpoint save_all (tasks : list Task) : M state unit :=
  match tasks with
  | [] => mret tt
  | task :: tasks => save task;; save_all tasks
  end.

(** The calls a client can make, and the state a sequence of calls
    leaves. *)
Inductive call : Type :=
| Connect
| Save (task : Task)
| Get (task_id : string)
| Delete (task_id : string)
| Close.

Definition run_call (c : call) (σ : state) : state :=
  match c with
  | Connect => final connect σ
  | Save task => final (save task) σ
  | Get task_id => final (get task_id) σ
  | Delete task_id => final (delete task_id) σ
  | Close => final close σ
  end.

Definition run_calls (calls : list call) (σ : state) : state :=
  foldl (λ σ c, run_call c σ) σ calls.

(** What [get] answers from the payloads recorded under an id. *)
Definition answer (payloads : list string) : result (option Task) :=
  match payloads with
  | [] => Return None
  | task_data :: _ =>
      match Task_parse_raw task_data with
      | Some task => Return (Some task)
      | None => Raise ValidationError
      end
  end.

End Task.

(** *** What a state holds, and when a store can be used *)

(** The database the store works on, when it can be written: the file at
    its path, or for a temporary name the private database of the
    connection it holds. *)
Definition database_of (σ : state) : option (gmap string table) :=
  if is_temporary (db_path σ.1) then
    match _conn σ.1 with
    | Some c => temps σ.2 !! c
    | None => None
    end
  else
    match files σ.2 !! db_path σ.1 with
    | Some (Database db) => Some db
    | _ => None
    end.

(** The table [tasks] of that database. *)
Definition tasks_table (σ : state) : option table :=
  match database_of σ with
  | Some db => db !! "tasks"
  | None => None
  end.

Definition rows_of (σ : state) : table := default [] (tasks_table σ).

(** The payloads recorded under an id, in table order. *)
Definition stored (σ : state) (task_id : string) : list string :=
  (filter (λ r : row, r.1 = task_id) (rows_of σ)).*2.

(** The primary key constraint on the table. *)
Definition unique_ids (σ : state) : Prop := NoDup (rows_of σ).*1.

(** A location where [connect] can open or create a database and write
    to it: a temporary name, a path with no file yet, or a database file
    that can be written. *)
Definition writable_location (w : world) (path : string) : bool :=
  is_temporary path ||
  match files w !! path with
  | None | Some (Database _) => true
  | Some _ => false
  end.

(** A store is usable when its location is such and, if it holds a
    connection, the connection is open on its path and the table exists:
    what [connect] establishes. *)
Definition store_ok (σ : state) : Prop :=
  match _conn σ.1 with
  | None => writable_location σ.2 (db_path σ.1) = true
  | Some c => conns σ.2 !! c = Some (Some (db_path σ.1)) ∧ is_Some (tasks_table σ)
  end.

(** A location that is not writable or creatable: it names a file, and
    SQLite cannot open or create it, or the file is there and may only be
    read. *)
Definition not_writable_or_creatable (w : world) (path : string) : bool :=
  negb (is_temporary path) &&
  match files w !! path with
  | Some Unopenable | Some (ReadOnly _) => true
  | _ => false
  end.

End db_task_store.


(** ** [weather_agent/weather_tools.py]

    The values of a decoded JSON document, the HTTP client as a function
    from the requests made so far and a URL to what the server answers,
    and the state of a call: the list of URLs requested, oldest first.
    [get_forecast] is the function that the decorator [@tool] wraps. *)

Module weather_tools.

#[warnings="-register-all"]
Inductive json : Type :=
| JNull
| JBool (b : bool)
| JInt (n : Z)
| JFloat (x : spec_float)
| JStr (s : string)
| JList (l : list json)
| JDict (d : list (string * json)).

(** What [http_client.get(url)] meets: no response at all
    ([httpx.RequestError]), or a response whose [raise_for_status()] may
    raise ([status_error]) and whose [json()] may fail ([body = None]). *)
Record response : Type := Response {
  status_error : option string;
  body : option json
}.

Inductive http_result : Type :=
| NoResponse (error : string)
| Answer (r : response).

(** Python floats are binary64. *)
Definition float (n : Z) : spec_float := binary_normalize 53 1024 n 0 false.

Definition nl : string := String "010" "".

(** [sep.join(parts)] *)
Fixpoint str_join (sep : string) (parts : list string) : string :=
  match parts with
  | [] => ""
  | [part] => part
  | part :: parts => part +:+ sep +:+ str_join sep parts
  end.

(** Truth value of an object, as [if not x] tests it. *)
Definition truthy (v : json) : bool :=
  match v with
  | JNull => false
  | JBool b => b
  | JInt n => negb (n =? 0)%Z
  | JFloat x => negb (SFeqb x (S754_zero false))
  | JStr s => negb (String.eqb s "")
  | JList l => negb (bool_decide (l = []))
  | JDict d => negb (bool_decide (d = []))
  end.

Fixpoint assoc (key : string) (d : list (string * json)) : option json :=
  match d with
  | [] => None
  | (k, v) :: d => if String.eqb k key then Some v else assoc key d
  end.

Section tools.

(** The server behind [http_client]. *)
Variable server : list string → string → http_result.

(** Built-ins of Python: the format [.4f] of a float, [str()] of a value
    that is not a string, and [str.strip()]. *)
Variable format_4f : spec_float → string.
Variable repr : json → string.
Variable strip : string → string.

(** [obj.get(key, default)]; only a dict has the method. *)
Definition dict_get {S} (obj : json) (key : string) (dflt : json) : M S json :=
  match obj with
  | JDict d => mret (default dflt (assoc key d))
  | _ => raise AttributeError
  end.

(** [str(v)], as an f-string formats a value. *)
Definition str (v : json) : string :=
  match v with
  | JStr s => s
  | _ => repr v
  end.

(** [v.strip()]; only a string has the method. *)
Definition str_strip {S} (v : json) : M S string :=
  match v with
  | JStr s => mret (strip s)
  | _ => raise AttributeError
  end.

Definition format_forecast_period {S} (period : json) : M S string :=
  name ← dict_get period "name" (JStr "Unknown Period");
  temperature ← dict_get period "temperature" (JStr "N/A");
  temperatureUnit ← dict_get period "temperatureUnit" (JStr "F");
  windSpeed ← dict_get period "windSpeed" (JStr "N/A");
  windDirection ← dict_get period "windDirection" (JStr "N/A");
  shortForecast ← dict_get period "shortForecast" (JStr "N/A");
  detailedForecast ←
    dict_get period "detailedForecast" (JStr "No detailed forecast provided.");
  detailed ← str_strip detailedForecast;
  mret (nl +:+
    "           " +:+ str name +:+ ":" +:+ nl +:+
    "             Temperature: " +:+ str temperature +:+ "°" +:+
      str temperatureUnit +:+ nl +:+
    "             Wind: " +:+ str windSpeed +:+ " " +:+ str windDirection +:+ nl +:+
    "             Short Forecast: " +:+ str shortForecast +:+ nl +:+
    "             Detailed Forecast: " +:+ detailed +:+ nl +:+
    "           ").

(** [http_client.get(url)]: the request is made, then the client returns
    the response or raises. *)
Definition http_client_get (url : string) : M (list string) response :=
  λ requests,
    match server requests url with
    | NoResponse error => (Raise (RequestError error), requests ++ [url])
    | Answer r => (Return r, requests ++ [url])
    end.

Definition raise_for_status {S} (r : response) : M S unit :=
  match status_error r with
  | Some error => raise (HTTPStatusError error)
  | None => mret tt
  end.

Definition response_json {S} (r : response) : M S json :=
  match body r with
  | Some data => mret data
  | None => raise JSONDecodeError
  end.

(** The three statements of each [try] block. *)
Definition fetch (url : string) : M (list string) json :=
  r ← http_client_get url;
  raise_for_status r;;
  response_json r.

(** [except (httpx.HTTPStatusError, httpx.RequestError) as e:
     return f"{message}{e}"] *)
Definition except_httpx (message : string) (e : exn) :
    option (M (list string) string) :=
  match e with
  | HTTPStatusError msg | RequestError msg => Some (mret (message +:+ msg))
  | _ => None
  end.

(** The URL argument of [http_client.get]: a string. *)
Definition as_url {S} (v : json) : M S string :=
  match v with
  | JStr url => mret url
  | _ => raise TypeError
  end.

(** [periods[:5]], then the iteration over it.  A string slices to a
    string, whose characters have no [get]; the other values that pass
    the truth test cannot be sliced. *)
Definition first_five {S} (periods : json) : M S (list json) :=
  match periods with
  | JList l => mret (take 5 l)
  | JStr _ => raise AttributeError
  | _ => raise TypeError
  end.

Definition in_range (latitude longitude : spec_float) : bool :=
  SFleb (float (-90)) latitude && SFleb latitude (float 90) &&
  SFleb (float (-180)) longitude && SFleb longitude (float 180).

Definition point_endpoint (latitude longitude : spec_float) : string :=
  "/points/" +:+ format_4f latitude +:+ "," +:+ format_4f longitude.

Definition get_forecast (latitude longitude : spec_float) : M (list string) string :=
  if negb (in_range latitude longitude)
  then mret "Invalid latitude or longitude provided."
  else
    try_except (fetch (point_endpoint latitude longitude))
      (except_httpx "Unable to retrieve NWS gridpoint information: ")
      (λ points_data,
        properties ← dict_get points_data "properties" (JDict []);
        forecast_url ← dict_get properties "forecast" JNull;
        if negb (truthy forecast_url)
        then mret "Could not find the NWS forecast endpoint."
        else
          try_except (url ← as_url forecast_url; fetch url)
            (except_httpx "Failed to retrieve detailed forecast data: ")
            (λ forecast_data,
              properties ← dict_get forecast_data "properties" (JDict []);
              periods ← dict_get properties "periods" (JList []);
              if negb (truthy periods)
              then mret "No forecast periods found for this location."
              else
                periods ← first_five periods;
                forecasts ← mapM format_forecast_period periods;
                mret (str_join (nl +:+ "---" +:+ nl) forecasts))).

End tools.

(** A coordinate strictly below [lo] or strictly above [hi]. *)
Definition outside (lo hi : Z) (x : spec_float) : Prop :=
  SFltb x (float lo) = true ∨ SFltb (float hi) x = true.

(** A period as the forecast service sends it: an object whose
    [detailedForecast], when present, is a string. *)
Definition well_formed_period (period : json) : bool :=
  match period with
  | JDict d =>
      match assoc "detailedForecast" d with
      | None | Some (JStr _) => true
      | Some _ => false
      end
  | _ => false
  end.

End weather_tools.

(** ** Concrete tasks and stores, for the examples *)

Module examples.

Import sqlite3 db_task_store.

(** A task with an id and a status, written [id:status]. *)
Record SimpleTask : Type := { task_id : string; status : string }.

Fixpoint split_colon (s : string) : option (string * string) :=
  match s with
  | EmptyString => None
  | String c rest =>
      if Ascii.eqb c ":"%char
      then Some (EmptyString, rest)
      else '(i, d) ← split_colon rest; Some (String c i, d)
  end.

#[export] Instance SimpleTask_class : TaskClass SimpleTask := {|
  Task_id t := task_id t;
  Task_json t := task_id t +:+ ":" +:+ status t;
  Task_parse_raw s := '(i, d) ← split_colon s; Some {| task_id := i; status := d |}
|}.

Definition pending : SimpleTask := {| task_id := "task-1"; status := "pending" |}.
Definition done : SimpleTask := {| task_id := "task-1"; status := "done" |}.
Definition other : SimpleTask := {| task_id := "task-2"; status := "pending" |}.

(** A new store on a path where no file exists yet. *)
Definition fresh : state := (__init__ "tasks.db", World ∅ [] ∅).

(** A store whose file holds a row that is not a task. *)
Definition corrupted : state :=
  (__init__ "tasks.db",
   World {[ "tasks.db" := Database {[ "tasks" := [("task-9", "garbage")] ]} ]}
     [] ∅).

(** A store that has saved a task and holds its connection. *)
Definition saved : state := final (save pending) fresh.

(** A store on a path that cannot be opened. *)
Definition unreachable : state :=
  (__init__ "/missing/tasks.db",
   World {[ "/missing/tasks.db" := Unopenable ]} [] ∅).

(** A new store on the private database of SQLite. *)
Definition in_memory : state := (__init__ ":memory:", World ∅ [] ∅).

(** A store on a database file that may only be read and has the table. *)
Definition read_only : state :=
  (__init__ "tasks.db",
   World {[ "tasks.db" := ReadOnly {[ "tasks" := [("task-1", "task-1:pending")] ]} ]}
     [] ∅).

(** A store on a file that is no database. *)
Definition garbled : state :=
  (__init__ "tasks.db", World {[ "tasks.db" := NotADatabase ]} [] ∅).

(** A forecast service that knows one point, with six periods. *)
Definition format_4f (x : spec_float) : string :=
  if SFeqb x (weather_tools.float 40) then "40.0000"
  else if SFeqb x (weather_tools.float (-75)) then "-75.0000"
  else "0.0000".

Definition repr (v : weather_tools.json) : string :=
  match v with
  | weather_tools.JInt n => pretty n
  | _ => "?"
  end.

Fixpoint lstrip (s : string) : string :=
  match s with
  | String c rest => if Ascii.eqb c " " then lstrip rest else s
  | EmptyString => s
  end.

Definition strip (s : string) : string :=
  String.rev (lstrip (String.rev (lstrip s))).

Definition period (name : string) (temperature : Z) : weather_tools.json :=
  weather_tools.JDict
    [("name", weather_tools.JStr name);
     ("temperature", weather_tools.JInt temperature);
     ("detailedForecast", weather_tools.JStr " Clear. ")].

Definition six_periods : list weather_tools.json :=
  [period "Today" 71; period "Tonight" 55; period "Friday" 73;
   period "Friday Night" 57; period "Saturday" 70; period "Saturday Night" 54].

Definition forecast_url : string :=
  "https://api.weather.gov/gridpoints/PHI/49,75/forecast".

Definition server (requests : list string) (url : string) : weather_tools.http_result :=
  if String.eqb url "/points/40.0000,-75.0000" then
    weather_tools.Answer (weather_tools.Response None (Some
      (weather_tools.JDict [("properties",
         weather_tools.JDict [("forecast", weather_tools.JStr forecast_url)])])))
  else if String.eqb url forecast_url then
    weather_tools.Answer (weather_tools.Response None (Some
      (weather_tools.JDict [("properties",
         weather_tools.JDict [("periods", weather_tools.JList six_periods)])])))
  else weather_tools.NoResponse "connection refused".

End examples.

(** ** The store seen as a finite map, and its connections

    Definitions for the properties proved beyond the round trips: the
    records as a map from id to payload, the effect of a call on that
    map, how many connections are open, and the parts of the file system
    a store has no business with. *)

Module db_task_store_view.

Import sqlite3 db_task_store.

(** The payload that [SELECT .. WHERE id = ?] followed by [fetchone] finds
    for each id. *)
Definition contents (σ : state) : gmap string string :=
  list_to_map (rows_of σ).

Section Task.

Context {Task : Type} `{TaskClass Task}.

(** What a call does to the map; [temporary] tells that the store is on a
    temporary database, which [close] discards. *)
Definition map_effect (temporary : bool) (c : @call Task)
    (m : gmap string string) : gmap string string :=
  match c with
  | Save task => <[Task_id task := Task_json task]> m
  | Delete task_id => base.delete task_id m
  | Close => if temporary then ∅ else m
  | Connect | Get _ => m
  end.

(** The exception a call raises, if it raises. *)
Definition failure (c : @call Task) (σ : state) : option exn :=
  let raised {A} (r : result A) : option exn :=
    match r with
    | Return _ => None
    | Raise e => Some e
    end in
  match c with
  | Connect => raised (outcome connect σ)
  | Save task => raised (outcome (save task) σ)
  | Get task_id => raised (outcome (get task_id) σ)
  | Delete task_id => raised (outcome (delete task_id) σ)
  | Close => raised (outcome close σ)
  end.

(** The calls other than [close()]. *)
Definition keeps_connection (c : @call Task) : bool :=
  match c with
  | Close => false
  | _ => true
  end.

End Task.

(** The handles that are open, in the order they were handed out. *)
Fixpoint open_from (h : Connection) (cs : list (option string)) : list Connection :=
  match cs with
  | [] => []
  | Some _ :: cs => h :: open_from (S h) cs
  | None :: cs => open_from (S h) cs
  end.

Definition open_handles (w : world) : list Connection := open_from 0 (conns w).

(** The only open connection, if any, is the one the store holds. *)
Definition tidy (σ : state) : Prop :=
  open_handles σ.2 = option_list (_conn σ.1).

(** A table of the database file at the store's path. *)
Definition table_at (σ : state) (name : string) : option table :=
  match files σ.2 !! db_path σ.1 with
  | Some (Database db) => db !! name
  | _ => None
  end.

End db_task_store_view.

(** ** [get_forecast_by_city], and the defaults of a period

    The geocoder is a function from the query to what [geolocator.geocode]
    gives: a location, [None], or an exception; its own traffic is not
    part of the requests of [http_client].  The last line of the function
    calls the object that [@tool] made of [get_forecast]; what that call
    does is the decorator's, so it is a variable here. *)

Module weather_tools_city.

Import weather_tools.

(** The key and default of each [period.get] in [format_forecast_period]. *)
Definition period_defaults : list (string * json) :=
  [("name", JStr "Unknown Period");
   ("temperature", JStr "N/A");
   ("temperatureUnit", JStr "F");
   ("windSpeed", JStr "N/A");
   ("windDirection", JStr "N/A");
   ("shortForecast", JStr "N/A");
   ("detailedForecast", JStr "No detailed forecast provided.")].

(** How a request can fail for the two [except] clauses: no response, or
    a response whose status [raise_for_status] rejects. *)
Definition fails_with (answer : http_result) (error : string) : Prop :=
  answer = NoResponse error ∨
  ∃ data, answer = Answer (Response (Some error) data).

(** A coordinate that is not a number, or not a finite one. *)
Definition not_finite (x : spec_float) : bool :=
  match x with
  | S754_nan | S754_infinity _ => true
  | _ => false
  end.

(** [geopy.location.Location], as far as the function reads it. *)
Record Location : Type := {
  latitude : spec_float;
  longitude : spec_float
}.

Section city.

Variable geocode : string → result (option Location).

(** [str(e)], as the f-string formats the exception. *)
Variable exn_text : exn → string.

Variable get_forecast_tool : spec_float → spec_float → M (list string) string.

Definition geolocator_geocode {S} (query : string) : M S (option Location) :=
  λ s, (geocode query, s).

(** [except Exception as e]: every exception of the model is caught. *)
Definition except_Exception (message : string) (e : exn) :
    option (M (list string) string) :=
  Some (mret (message +:+ exn_text e)).

Definition get_forecast_by_city (city state : string) : M (list string) string :=
  try_except (geolocator_geocode (city +:+ ", " +:+ state +:+ ", USA"))
    (except_Exception "An error occurred during geocoding: ")
    (λ location,
      match location with
      | None =>
          mret ("Could not find coordinates for '" +:+ city +:+ ", " +:+
                state +:+ "'.")
      | Some location =>
          get_forecast_tool (latitude location) (longitude location)
      end).

End city.

End weather_tools_city.

(** ** More concrete services, for the examples *)

Module examples_more.

Import weather_tools weather_tools_city.

(** A server that answers from a table of URLs and refuses the rest. *)
Fixpoint answer_of (url : string) (table : list (string * http_result)) :
    http_result :=
  match table with
  | [] => NoResponse "connection refused"
  | (u, r) :: table => if String.eqb u url then r else answer_of url table
  end.

Definition table_server (table : list (string * http_result))
    (requests : list string) (url : string) : http_result :=
  answer_of url table.

Definition ok (data : json) : http_result :=
  Answer (Response None (Some data)).

Definition point : string := "/points/40.0000,-75.0000".

(** The grid point has no forecast URL. *)
Definition without_url : list (string * http_result) :=
  [(point, ok (JDict [("properties", JDict [("cwa", JStr "PHI")])]))].

(** The forecast URL answers with a server error. *)
Definition forecast_down : list (string * http_result) :=
  [(point, ok (JDict [("properties",
                        JDict [("forecast", JStr examples.forecast_url)])]));
   (examples.forecast_url,
    Answer (Response (Some "Server error '500 Internal Server Error'") None))].

(** The forecast has no periods. *)
Definition without_periods : list (string * http_result) :=
  [(point, ok (JDict [("properties",
                        JDict [("forecast", JStr examples.forecast_url)])]));
   (examples.forecast_url, ok (JDict [("properties", JDict [("periods", JList [])])]))].

(** The grid point answers with a page that is not JSON. *)
Definition not_json : list (string * http_result) :=
  [(point, Answer (Response None None))].

(** A geocoder that knows one city, finds nothing for another and times
    out on the rest. *)
Definition geocode (query : string) : result (option Location) :=
  if String.eqb query "Philadelphia, PA, USA" then
    Return (Some {| latitude := float 40; longitude := float (-75) |})
  else if String.eqb query "Atlantis, ZZ, USA" then Return None
  else Raise (RequestError "timed out").

Definition exn_text (e : exn) : string :=
  match e with
  | OperationalError msg | ProgrammingError msg
  | HTTPStatusError msg | RequestError msg => msg
  | _ => ""
  end.

(** Calls on a store of [SimpleTask]. *)
Definition some_calls : list (@db_task_store.call examples.SimpleTask) :=
  [db_task_store.Save examples.pending; db_task_store.Get "task-1";
   db_task_store.Save examples.done; db_task_store.Delete "task-2";
   db_task_store.Close; db_task_store.Save examples.other].

Definition calls_without_close : list (@db_task_store.call examples.SimpleTask) :=
  [db_task_store.Get "task-1"; db_task_store.Save examples.other;
   db_task_store.Delete "task-1"; db_task_store.Connect].

Definition five_periods : list json :=
  [examples.period "Today" 71; examples.period "Tonight" 55;
   examples.period "Friday" 73; examples.period "Friday Night" 57;
   examples.period "Saturday" 70].

End examples_more.

(** ** [airbnb_agent/__main__.py]: [app_lifespan]

    The context manager that [main] wraps around the server.  The state
    is the dict passed as [context] and the two output streams.  The MCP
    client is imported: making one and asking it for its tools either
    give a value or raise.  [body] is what runs at the [yield], that is
    the block under [async with app_lifespan(..)]; an exception it raises
    is thrown in at the [yield], inside the [try].  All exceptions of the
    model are instances of [Exception]. *)

Module airbnb_agent_main.

Section lifespan.

Context {client tool : Type}.

(** What the context holds. *)
Inductive object : Type :=
| MCPClient (c : client)
| MCPTools (tools : list tool)
| Other (description : string).

Record app : Type := App {
  context : gmap string object;
  stdout : list string;
  stderr : list string
}.

Variable new_client : result client.
Variable get_tools : client → result (list tool).

(** [str(e)], as the f-string formats the exception. *)
Variable exn_text : exn → string.

Definition print (line : string) : M app unit :=
  λ s, (Return tt, App (context s) (stdout s ++ [line]) (stderr s)).

Definition print_stderr (line : string) : M app unit :=
  λ s, (Return tt, App (context s) (stdout s) (stderr s ++ [line])).

(** [context[key] = value] *)
Definition set_item (key : string) (value : object) : M app unit :=
  λ s, (Return tt, App (<[key := value]> (context s)) (stdout s) (stderr s)).

(** [context.clear()] *)
Definition clear : M app unit :=
  λ s, (Return tt, App ∅ (stdout s) (stderr s)).

Definition lift {A} (r : result A) : M app A := λ s, (r, s).

(** [try: body / except Exception as e: handler(e); raise] *)
Definition except_reraise {A} (body : M app A) (handler : exn → M app unit) :
    M app A :=
  λ s, match body s with
       | (Return a, s') => (Return a, s')
       | (Raise e, s') =>
           match handler e s' with
           | (Return _, s'') => (Raise e, s'')
           | (Raise e', s'') => (Raise e', s'')
           end
       end.

(** [try: body / finally: cleanup] *)
Definition try_finally {A} (body : M app A) (cleanup : M app unit) : M app A :=
  λ s, match body s with
       | (r, s') =>
           match cleanup s' with
           | (Return _, s'') => (r, s'')
           | (Raise e, s'') => (Raise e, s'')
           end
       end.

(** [len(x) if x else 0] *)
Definition tool_count (tools : list tool) : nat :=
  if bool_decide (tools = []) then 0 else length tools.

Definition app_lifespan {A} (body : M app A) : M app A :=
  print "Lifespan: Initializing MCP client and tools...";;
  try_finally
    (except_reraise
       (c ← lift new_client;
        set_item "mcp_client" (MCPClient c);;
        tools ← lift (get_tools c);
        set_item "mcp_tools" (MCPTools tools);;
        print ("Lifespan: MCP Tools preloaded successfully (" +:+
               pretty (tool_count tools) +:+ " tools found).");;
        body)
       (λ e, print_stderr
               ("Lifespan: Error during initialization: " +:+ exn_text e)))
    (print "Lifespan: Shutting down MCP client...";;
     print "Lifespan: Clearing application context.";;
     clear).

(** *** [main]

    The objects that [run_server_async] builds between the [async with]
    and the line it prints (the executor, the request handler, the
    application with its agent card, the Uvicorn configuration and
    server) come from imported classes: [build] stands for these
    constructions, from the value given as [mcp_tools], the host, the
    port and the lowered log level; [serve] is
    [uvicorn_server.serve()].  [main] ends by returning, by raising its
    [ValueError], or by [sys.exit]. *)

Context {server : Type}.

Variable build : object → string → Z → string → result server.
Variable serve : server → M app unit.

(** [log_level.lower()] *)
Variable lower : string → string.

Inductive ending : Type :=
| Returns
| RaisesValueError (message : string)
| Exits (status : Z).

(** [not os.getenv(name)]: unset, or set to the empty string. *)
Definition not_set (environ : gmap string string) (name : string) : bool :=
  match environ !! name with
  | None => true
  | Some value => String.eqb value ""
  end.

Definition run_server_async (host : string) (port : Z) (log_level : string) :
    M app unit :=
  app_lifespan
    (app_context ← (λ s, (Return (context s), s));
     uvicorn_server ←
       lift (build (default (MCPTools []) (app_context !! "mcp_tools"))
               host port (lower log_level));
     print ("Starting Uvicorn server at http://" +:+ host +:+ ":" +:+
            pretty port +:+ " with log-level " +:+ log_level +:+ "...");;
     try_finally (serve uvicorn_server) (print "Uvicorn server has stopped.")).

Definition main (environ : gmap string string)
    (host : string) (port : Z) (log_level : string) : app → ending * app :=
  λ s,
    if negb (bool_decide (environ !! "GOOGLE_GENAI_USE_VERTEXAI" = Some "TRUE"))
       && not_set environ "GOOGLE_API_KEY"
    then
      (RaisesValueError
         ("GOOGLE_API_KEY environment variable not set and " +:+
          "GOOGLE_GENAI_USE_VERTEXAI is not TRUE."), s)
    else
      match run_server_async host port log_level s with
      | (Return _, s') => (Returns, s')
      | (Raise e, s') =>
          (Exits 1,
           App (context s') (stdout s')
             (stderr s' ++
                ["An unexpected error occurred in main: " +:+ exn_text e]))
      end.

End lifespan.

End airbnb_agent_main.

(** ** A concrete MCP client, for the examples *)

Module examples_lifespan.

(** An MCP client named by a string, with two tools; a body that prints
    one line; a context with an entry left from before. *)
Definition tools_of (c : string) : result (list string) :=
  Return ["airbnb_search"; "airbnb_listing_details"].

Definition serving : M (@airbnb_agent_main.app string string) nat :=
  airbnb_agent_main.print "Starting Uvicorn server";; mret 0.

Definition before : @airbnb_agent_main.app string string :=
  airbnb_agent_main.App
    {[ "stale" := airbnb_agent_main.Other "left over" ]} [] [].

Definition no_npx : exn := RequestError "npx: command not found".

(** A server named by a string whose [serve] prints a line; log levels
    that are lower case as they are; two environments. *)
Definition build (mcp_tools : @airbnb_agent_main.object string string)
    (host : string) (port : Z) (log_level : string) : result string :=
  Return (host +:+ ":" +:+ pretty port).

Definition serve (uvicorn_server : string) :
    M (@airbnb_agent_main.app string string) unit :=
  airbnb_agent_main.print ("serving on " +:+ uvicorn_server).

Definition lower (log_level : string) : string := log_level.

Definition with_key : gmap string string :=
  {[ "GOOGLE_API_KEY" := "secret" ]}.

Definition lower_case_flag : gmap string string :=
  {[ "GOOGLE_GENAI_USE_VERTEXAI" := "true"; "GOOGLE_API_KEY" := "" ]}.

End examples_lifespan.

(** * Properties of the task store *)

Module db_task_store_props.

Import sqlite3 db_task_store db_task_store_view.

Ltac py_unfold :=
  unfold mbind, mret, M_bind, M_ret, bind, ret, raise, get_self, set_conn,
    on_snd, transaction in *.

Lemma on_database_file {A} c path fs cs ts db
    (stmt : gmap string table → effect A) :
  cs !! c = Some (Some path) →
  is_temporary path = false →
  fs !! path = Some (Database db) →
  on_database c stmt (World fs cs ts) =
    match stmt db with
    | Reads r => (r, World fs cs ts)
    | Writes a db' =>
        (Return a,
         World (<[path := Database db']> (base.delete (journal path) fs)) cs ts)
    end.
Proof. intros Hc Ht Hf. unfold on_database. simpl. by rewrite Hc, Ht, Hf. Qed.

Lemma on_database_temporary {A} c path fs cs ts db
    (stmt : gmap string table → effect A) :
  cs !! c = Some (Some path) →
  is_temporary path = true →
  ts !! c = Some db →
  on_database c stmt (World fs cs ts) =
    match stmt db with
    | Reads r => (r, World fs cs ts)
    | Writes a db' => (Return a, World fs cs (<[c := db']> ts))
    end.
Proof. intros Hc Ht Hf. unfold on_database. simpl. by rewrite Hc, Ht, Hf. Qed.

(** A connection that was closed is of no use: the statement raises. *)
Lemma closed_connection_raises {A} c w
    (stmt : gmap string table → effect A) :
  c < length (conns w) →
  on_database c stmt (final (sqlite3.close c) w)
  = (Raise closed_database, final (sqlite3.close c) w).
Proof.
  intros Hc. unfold on_database, final, sqlite3.close. simpl.
  by rewrite list_lookup_insert_eq.
Qed.

(** The database behind the connection of a usable store, and what a
    statement leaves of it. *)
Lemma statement_spec {A} σ c (stmt : gmap string table → effect A) :
  _conn σ.1 = Some c →
  store_ok σ →
  ∃ db, database_of σ = Some db ∧ db !! "tasks" = Some (rows_of σ) ∧
    match stmt db with
    | Reads r => on_database c stmt σ.2 = (r, σ.2)
    | Writes a db' =>
        ∃ w', on_database c stmt σ.2 = (Return a, w') ∧
              conns w' = conns σ.2 ∧
              database_of (σ.1, w') = Some db'
    end.
Proof.
  destruct σ as [[path conn] [fs cs ts]].
  unfold store_ok, rows_of, tasks_table, database_of. simpl.
  intros -> [Hc Hr]. revert Hr.
  destruct (is_temporary path) eqn:Ht.
  - destruct (ts !! c) as [db|] eqn:Hdb; [|by intros [? ?]].
    intros [rows Hr]. exists db. rewrite Hr. do 2 (split; [done|]).
    rewrite (on_database_temporary _ _ _ _ _ _ _ Hc Ht Hdb).
    destruct (stmt db) as [r|a db']; [done|].
    eexists. split; [reflexivity|]. simpl. by rewrite lookup_insert_eq.
  - destruct (fs !! path) as [[|db|db|]|] eqn:Hp; try by intros [? ?].
    intros [rows Hr]. exists db. rewrite Hr. do 2 (split; [done|]).
    rewrite (on_database_file _ _ _ _ _ _ _ Hc Ht Hp).
    destruct (stmt db) as [r|a db']; [done|].
    eexists. split; [reflexivity|]. simpl. by rewrite lookup_insert_eq.
Qed.

(** [connect] on a store without a connection: it raises for want of a
    file and changes nothing, or it opens one more handle, which the store
    then holds whether the table could be made or not. *)
Lemma connect_closed path fs cs ts :
  let σ := ({| db_path := path; _conn := None |}, World fs cs ts) in
  connect σ = (Raise cannot_open, σ) ∨
  ∃ r fs' ts',
    connect σ
    = (r, ({| db_path := path; _conn := Some (length cs) |},
           World fs' (cs ++ [Some path]) ts')).
Proof.
  simpl. unfold connect. py_unfold. simpl. unfold sqlite3.connect. simpl.
  unfold _create_table. py_unfold. simpl.
  unfold create_table_if_not_exists, on_database. simpl.
  destruct (is_temporary path) eqn:Ht; simpl.
  { rewrite list_lookup_middle by done. rewrite Ht, lookup_insert_eq, lookup_empty.
    simpl. right. eauto. }
  destruct (fs !! path) as [[|db|db|]|] eqn:Hp; simpl.
  - by left.
  - right. rewrite list_lookup_middle by done. rewrite Ht, Hp.
    destruct (db !! "tasks"); simpl; eauto.
  - right. rewrite list_lookup_middle by done. rewrite Ht, Hp.
    destruct (db !! "tasks"); simpl; eauto.
  - right. rewrite list_lookup_middle by done. rewrite Ht, Hp. simpl. eauto.
  - right. rewrite list_lookup_middle by done.
    rewrite Ht, lookup_insert_eq, lookup_empty. simpl. eauto.
Qed.

Lemma connect_open σ : is_Some (_conn σ.1) → connect σ = (Return tt, σ).
Proof. destruct σ as [[path conn] w]. by intros [n [= ->]]. Qed.

(** [connect] on a usable store: it returns, the store then holds a
    connection, and the rows are those that were there. *)
Lemma connect_spec σ :
  store_ok σ →
  ∃ σ', connect σ = (Return tt, σ') ∧ store_ok σ' ∧ is_Some (_conn σ'.1) ∧
        db_path σ'.1 = db_path σ.1 ∧ rows_of σ' = rows_of σ.
Proof.
  destruct σ as [[path [c|]] [fs cs ts]].
  { intros Hok. eexists. split; [reflexivity|]. simpl. eauto. }
  unfold store_ok, writable_location, rows_of, tasks_table, database_of. simpl.
  unfold connect. py_unfold. simpl. unfold sqlite3.connect. simpl.
  unfold _create_table. py_unfold. simpl.
  unfold create_table_if_not_exists, on_database. simpl.
  destruct (is_temporary path) eqn:Ht; simpl.
  { intros _. rewrite list_lookup_middle by done.
    rewrite Ht, lookup_insert_eq, lookup_empty. simpl.
    eexists. split; [reflexivity|]. simpl.
    rewrite list_lookup_middle by done. rewrite Ht, !lookup_insert_eq. eauto. }
  destruct (fs !! path) as [[|db|db|]|] eqn:Hp; try done; intros _; simpl.
  - rewrite list_lookup_middle by done. rewrite Ht, Hp.
    destruct (db !! "tasks") as [rows|] eqn:Hr; simpl.
    + eexists. split; [reflexivity|]. simpl.
      rewrite list_lookup_middle by done. rewrite Ht, Hp, Hr. eauto.
    + eexists. split; [reflexivity|]. simpl.
      rewrite list_lookup_middle by done. rewrite Ht, !lookup_insert_eq. eauto.
  - rewrite list_lookup_middle by done.
    rewrite Ht, lookup_insert_eq, lookup_empty. simpl.
    eexists. split; [reflexivity|]. simpl.
    rewrite list_lookup_middle by done. rewrite Ht, !lookup_insert_eq. eauto.
Qed.

(** The handle a usable store holds after [connect]: the one it held, or
    a new one. *)
Lemma connect_handle σ :
  store_ok σ →
  _conn (final connect σ).1 = Some (default (length (conns σ.2)) (_conn σ.1)).
Proof.
  intros Hok. destruct (connect_spec σ Hok) as (σ1 & E1 & _).
  destruct σ as [[path [c|]] [fs cs ts]].
  - unfold final. by rewrite connect_open by by eexists.
  - destruct (connect_closed path fs cs ts) as [E|(r & fs' & ts' & E)];
      unfold final; rewrite E; [|done].
    rewrite E in E1. discriminate.
Qed.

(** Selecting and deleting by id on a list of rows. *)
Section rows.

Implicit Types (rows : table) (id : string).

Lemma select_deleted rows id :
  filter (λ r : row, r.1 = id) (filter (λ r : row, r.1 ≠ id) rows) = [].
Proof.
  induction rows as [|r rows IH]; [done|].
  rewrite (filter_cons (λ r : row, r.1 ≠ id)).
  destruct (decide (r.1 ≠ id)) as [Hne|_]; [|done].
  rewrite filter_cons. by destruct (decide (r.1 = id)).
Qed.

Lemma select_other rows id id' :
  id' ≠ id →
  filter (λ r : row, r.1 = id') (filter (λ r : row, r.1 ≠ id) rows)
  = filter (λ r : row, r.1 = id') rows.
Proof.
  intros Hne. induction rows as [|r rows IH]; [done|].
  rewrite (filter_cons (λ r : row, r.1 ≠ id)), (filter_cons (λ r : row, r.1 = id')).
  destruct (decide (r.1 ≠ id)) as [H1|H1].
  - rewrite filter_cons. destruct (decide (r.1 = id')); by rewrite IH.
  - destruct (decide (r.1 = id')) as [H2|_]; [|done].
    apply dec_stable in H1. congruence.
Qed.

Lemma delete_absent rows id :
  filter (λ r : row, r.1 = id) rows = [] →
  filter (λ r : row, r.1 ≠ id) rows = rows.
Proof.
  induction rows as [|r rows IH]; [done|].
  rewrite !filter_cons.
  destruct (decide (r.1 = id)) as [H1|H1]; [done|].
  intros E. destruct (decide (r.1 ≠ id)); [|done]. by rewrite IH.
Qed.

Lemma select_replaced rows id task_data :
  (filter (λ r : row, r.1 = id)
     (filter (λ r : row, r.1 ≠ id) rows ++ [(id, task_data)])).*2 = [task_data].
Proof.
  rewrite filter_app, select_deleted. simpl.
  rewrite filter_cons. simpl. by destruct (decide (id = id)).
Qed.

Lemma select_replaced_other rows id id' task_data :
  id' ≠ id →
  filter (λ r : row, r.1 = id')
    (filter (λ r : row, r.1 ≠ id) rows ++ [(id, task_data)])
  = filter (λ r : row, r.1 = id') rows.
Proof.
  intros Hne. rewrite filter_app, select_other by done.
  rewrite filter_cons. simpl. destruct (decide (id = id')); [congruence|].
  by rewrite filter_nil, app_nil_r.
Qed.

Lemma ids_deleted rows id : id ∉ (filter (λ r : row, r.1 ≠ id) rows).*1.
Proof.
  intros Hin. apply list_elem_of_fmap in Hin as ([i d] & -> & Hin).
  apply list_elem_of_filter in Hin as [Hne _]. by apply Hne.
Qed.

Lemma NoDup_ids_deleted rows id :
  NoDup rows.*1 → NoDup (filter (λ r : row, r.1 ≠ id) rows).*1.
Proof.
  induction rows as [|r rows IH]; [done|].
  rewrite fmap_cons, NoDup_cons. intros [Hnotin Hnd].
  rewrite filter_cons. destruct (decide (r.1 ≠ id)); [|by apply IH].
  rewrite fmap_cons, NoDup_cons. split; [|by apply IH].
  intros Hin. apply Hnotin.
  apply list_elem_of_fmap in Hin as (r' & -> & Hin).
  apply list_elem_of_filter in Hin as [_ Hin].
  apply list_elem_of_fmap. eauto.
Qed.

Lemma NoDup_ids_replaced rows id task_data :
  NoDup rows.*1 →
  NoDup (filter (λ r : row, r.1 ≠ id) rows ++ [(id, task_data)]).*1.
Proof.
  intros Hnd. rewrite fmap_app. apply NoDup_app. split; [|split].
  - by apply NoDup_ids_deleted.
  - intros i Hi Hin. simpl in Hin. apply list_elem_of_singleton in Hin as ->.
    by apply ids_deleted in Hi.
  - simpl. apply NoDup_singleton.
Qed.

End rows.

(** A statement that rewrites the table [tasks], run on the connection of
    a usable store. *)
Lemma run_statement {A} σ c (a : A) rows'
    (stmt : gmap string table → effect A) :
  _conn σ.1 = Some c →
  store_ok σ →
  (∀ db, db !! "tasks" = Some (rows_of σ) →
         stmt db = Writes a (<["tasks" := rows']> db)) →
  ∃ σ', on_snd (on_database c stmt) σ = (Return a, σ') ∧
        on_snd (transaction (on_database c stmt)) σ = (Return a, σ') ∧
        σ'.1 = σ.1 ∧ store_ok σ' ∧ rows_of σ' = rows'.
Proof.
  intros Hc Hok Hstmt.
  destruct (statement_spec σ c stmt Hc Hok) as (db & Hdb & Hr & Hrun).
  rewrite (Hstmt db Hr) in Hrun. destruct Hrun as (w' & E & Hcs & Hdb').
  exists (σ.1, w'). unfold on_snd, transaction. rewrite E.
  do 3 (split; [done|]).
  unfold store_ok in Hok. rewrite Hc in Hok. destruct Hok as [Hconn _].
  unfold store_ok, rows_of, tasks_table. rewrite Hdb'.
  change ((σ.1, w').1) with σ.1. change ((σ.1, w').2) with w'.
  rewrite Hc, Hcs, lookup_insert_eq. eauto.
Qed.

(** A statement that only reads the table, run on the connection of a
    usable store: nothing changes. *)
Lemma run_query {A} σ c (r : result A)
    (stmt : gmap string table → effect A) :
  _conn σ.1 = Some c →
  store_ok σ →
  (∀ db, db !! "tasks" = Some (rows_of σ) → stmt db = Reads r) →
  on_snd (on_database c stmt) σ = (r, σ).
Proof.
  intros Hc Hok Hstmt.
  destruct (statement_spec σ c stmt Hc Hok) as (db & Hdb & Hr & Hrun).
  rewrite (Hstmt db Hr) in Hrun. unfold on_snd. rewrite Hrun. by destruct σ.
Qed.

Lemma delete_spec σ task_id :
  store_ok σ →
  ∃ σ', delete task_id σ = (Return tt, σ') ∧ store_ok σ' ∧ is_Some (_conn σ'.1) ∧
        db_path σ'.1 = db_path σ.1 ∧
        rows_of σ' = filter (λ r : row, r.1 ≠ task_id) (rows_of σ).
Proof.
  intros Hok. destruct (connect_spec σ Hok) as (σ1 & E1 & Hok1 & [c Hc] & Hp & Hr).
  unfold delete. py_unfold. rewrite E1. simpl. rewrite Hc.
  unfold delete_where_id.
  match goal with |- context [on_database c ?stmt] =>
    destruct (run_statement σ1 c tt
                (filter (λ r : row, r.1 ≠ task_id) (rows_of σ1)) stmt)
      as (σ2 & _ & E2 & Hs & Hok2 & Hr2); [done|done| |]
  end.
  { intros db Hdb. by rewrite Hdb. }
  unfold on_snd, transaction in E2. rewrite E2.
  eexists. split; [reflexivity|]. rewrite Hs, Hc, Hr2, Hr. eauto.
Qed.

Lemma close_spec σ :
  store_ok σ →
  ∃ σ', close σ = (Return tt, σ') ∧ store_ok σ' ∧ _conn σ'.1 = None ∧
        db_path σ'.1 = db_path σ.1 ∧ files σ'.2 = files σ.2.
Proof.
  destruct σ as [[path [c|]] [fs cs ts]];
    unfold store_ok, writable_location, tasks_table, database_of; simpl.
  - intros [Hc [rows Hr]]. unfold close. py_unfold. simpl.
    eexists. split; [reflexivity|]. simpl. repeat split.
    destruct (is_temporary path); [done|]. simpl.
    by destruct (fs !! path) as [[| | |]|].
  - intros Hf. eexists. split; [reflexivity|]. done.
Qed.

Lemma stored_ext σ σ' task_id :
  rows_of σ' = rows_of σ → stored σ' task_id = stored σ task_id.
Proof. unfold stored. by intros ->. Qed.

Lemma stored_nil σ task_id :
  stored σ task_id = [] → filter (λ r : row, r.1 = task_id) (rows_of σ) = [].
Proof. unfold stored. apply fmap_nil_inv. Qed.

Lemma delete_returns σ task_id :
  store_ok σ → outcome (delete task_id) σ = Return tt.
Proof.
  intros Hok. destruct (delete_spec σ task_id Hok) as (σ1 & E1 & _).
  unfold outcome. by rewrite E1.
Qed.

Lemma delete_ok σ task_id : store_ok σ → store_ok (final (delete task_id) σ).
Proof.
  intros Hok. destruct (delete_spec σ task_id Hok) as (σ1 & E1 & Hok1 & _).
  unfold final. by rewrite E1.
Qed.

Lemma delete_rows σ task_id :
  store_ok σ →
  rows_of (final (delete task_id) σ)
  = filter (λ r : row, r.1 ≠ task_id) (rows_of σ).
Proof.
  intros Hok. destruct (delete_spec σ task_id Hok) as (σ1 & E1 & _ & _ & _ & Hr).
  unfold final. by rewrite E1.
Qed.

Lemma close_returns σ : outcome close σ = Return tt.
Proof. by destruct σ as [[path [c|]] w]. Qed.

Lemma close_conn σ : _conn (final close σ).1 = None.
Proof. by destruct σ as [[path [c|]] w]. Qed.

Lemma close_path σ : db_path (final close σ).1 = db_path σ.1.
Proof. by destruct σ as [[path [c|]] w]. Qed.

Lemma close_files σ : files (final close σ).2 = files σ.2.
Proof. by destruct σ as [[path [c|]] w]. Qed.

Lemma close_ok σ : store_ok σ → store_ok (final close σ).
Proof.
  intros Hok. destruct (close_spec σ Hok) as (σ1 & E1 & Hok1 & _).
  unfold final. by rewrite E1.
Qed.

(** The rows after [close]: those of the file, and none for a temporary
    database, which is gone with its connection. *)
Lemma close_rows σ :
  rows_of (final close σ)
  = if is_temporary (db_path σ.1) then [] else rows_of σ.
Proof.
  destruct σ as [[path [c|]] [fs cs ts]];
    unfold rows_of, tasks_table, database_of, final, close; py_unfold; simpl;
    by destruct (is_temporary path).
Qed.

(** A store whose connection was closed is usable again, and the handle
    it held is closed. *)
Lemma close_handle σ c :
  store_ok σ → _conn σ.1 = Some c → conns (final close σ).2 !! c = Some None.
Proof.
  destruct σ as [[path conn] [fs cs ts]]. unfold store_ok. simpl.
  intros Hok ->. destruct Hok as [Hc _].
  unfold final, close. py_unfold. simpl.
  apply list_lookup_insert_eq. by apply lookup_lt_Some in Hc.
Qed.

(** A statement run on a connection changes neither the store object nor
    the connections. *)
Lemma statement_keeps {A} (conn : Connection) (σ : state)
    (stmt : gmap string table → effect A) :
  let σ' := final (on_snd (on_database conn stmt)) σ in
  let σ'' := final (on_snd (transaction (on_database conn stmt))) σ in
  (σ'.1 = σ.1 ∧ conns σ'.2 = conns σ.2) ∧
  (σ''.1 = σ.1 ∧ conns σ''.2 = conns σ.2).
Proof.
  destruct σ as [s [fs cs ts]]. unfold final, on_snd, transaction, on_database.
  simpl. destruct (cs !! conn) as [[p|]|]; simpl; try done.
  destruct (is_temporary p).
  - destruct (ts !! conn) as [db|]; simpl; try done.
    by destruct (stmt db) as [[a|e]|a db'].
  - destruct (fs !! p) as [[|db|db|]|]; simpl; try done;
      by destruct (stmt db) as [[a|e]|a db'].
Qed.

Section claims.

Context {Task : Type} `{TaskClass Task}.

Implicit Types (σ : state) (task : Task) (task_id : string).

Lemma save_spec σ task :
  store_ok σ →
  ∃ σ', save task σ = (Return tt, σ') ∧ store_ok σ' ∧ is_Some (_conn σ'.1) ∧
        db_path σ'.1 = db_path σ.1 ∧
        rows_of σ' = filter (λ r : row, r.1 ≠ Task_id task) (rows_of σ)
                       ++ [(Task_id task, Task_json task)].
Proof.
  intros Hok. destruct (connect_spec σ Hok) as (σ1 & E1 & Hok1 & [c Hc] & Hp & Hr).
  unfold save. py_unfold. rewrite E1. simpl. rewrite Hc.
  unfold insert_or_replace.
  match goal with |- context [on_database c ?stmt] =>
    destruct (run_statement σ1 c tt
                (filter (λ r : row, r.1 ≠ Task_id task) (rows_of σ1)
                   ++ [(Task_id task, Task_json task)]) stmt)
      as (σ2 & _ & E2 & Hs & Hok2 & Hr2); [done|done| |]
  end.
  { intros db Hdb. by rewrite Hdb. }
  unfold on_snd, transaction in E2. rewrite E2.
  eexists. split; [reflexivity|]. rewrite Hs, Hc, Hr2, Hr. eauto.
Qed.

Lemma get_spec σ task_id :
  store_ok σ →
  ∃ σ', get task_id σ = (answer (stored σ task_id), σ') ∧ store_ok σ' ∧
        is_Some (_conn σ'.1) ∧ db_path σ'.1 = db_path σ.1 ∧
        rows_of σ' = rows_of σ.
Proof.
  intros Hok. destruct (connect_spec σ Hok) as (σ1 & E1 & Hok1 & [c Hc] & Hp & Hr).
  unfold get. py_unfold. rewrite E1. simpl. rewrite Hc.
  unfold select_task_data.
  match goal with |- context [on_database c ?stmt] =>
    pose proof (run_query σ1 c (Return (stored σ task_id)) stmt Hc Hok1) as E2
  end.
  unfold on_snd in E2. rewrite E2.
  2: { intros db Hdb. rewrite Hdb. unfold stored. by rewrite Hr. }
  unfold fetchone, answer.
  destruct (stored σ task_id) as [|task_data rest]; simpl.
  - eexists. split; [reflexivity|]. rewrite Hc. eauto.
  - destruct (Task_parse_raw task_data);
      (eexists; split; [reflexivity|]; rewrite Hc; eauto).
Qed.

Lemma save_returns σ task : store_ok σ → outcome (save task) σ = Return tt.
Proof.
  intros Hok. destruct (save_spec σ task Hok) as (σ1 & E1 & _).
  unfold outcome. by rewrite E1.
Qed.

Lemma save_ok σ task : store_ok σ → store_ok (final (save task) σ).
Proof.
  intros Hok. destruct (save_spec σ task Hok) as (σ1 & E1 & Hok1 & _).
  unfold final. by rewrite E1.
Qed.

Lemma save_stored σ task :
  store_ok σ → stored (final (save task) σ) (Task_id task) = [Task_json task].
Proof.
  intros Hok. destruct (save_spec σ task Hok) as (σ1 & E & _ & _ & _ & Hr).
  unfold final, stored. rewrite E. simpl. rewrite Hr. apply select_replaced.
Qed.

Lemma save_stored_other σ task task_id :
  store_ok σ → task_id ≠ Task_id task →
  stored (final (save task) σ) task_id = stored σ task_id.
Proof.
  intros Hok Hne. destruct (save_spec σ task Hok) as (σ1 & E & _ & _ & _ & Hr).
  unfold final, stored. rewrite E. simpl. rewrite Hr.
  by rewrite select_replaced_other.
Qed.

Lemma save_unique σ task :
  store_ok σ → unique_ids σ → unique_ids (final (save task) σ).
Proof.
  intros Hok Hu. destruct (save_spec σ task Hok) as (σ1 & E & _ & _ & _ & Hr).
  unfold final, unique_ids. rewrite E. simpl. rewrite Hr.
  by apply NoDup_ids_replaced.
Qed.

Lemma get_answer σ task_id :
  store_ok σ → outcome (get task_id) σ = answer (stored σ task_id).
Proof.
  intros Hok. destruct (get_spec σ task_id Hok) as (σ1 & E1 & _).
  unfold outcome. by rewrite E1.
Qed.

Lemma save_all_spec σ tasks :
  store_ok σ →
  ∃ σ', save_all tasks σ = (Return tt, σ') ∧ store_ok σ' ∧
        db_path σ'.1 = db_path σ.1.
Proof.
  revert σ. induction tasks as [|task tasks IH]; intros σ Hok.
  - by exists σ.
  - destruct (save_spec σ task Hok) as (σ1 & E1 & Hok1 & _ & Hp1 & _).
    destruct (IH σ1 Hok1) as (σ2 & E2 & Hok2 & Hp2).
    exists σ2. simpl. py_unfold. rewrite E1, E2. rewrite Hp2, Hp1. done.
Qed.

Lemma save_all_cons σ task tasks :
  store_ok σ →
  final (save_all (task :: tasks)) σ = final (save_all tasks) (final (save task) σ).
Proof.
  intros Hok. destruct (save_spec σ task Hok) as (σ1 & E1 & _).
  unfold final. simpl. py_unfold. by rewrite E1.
Qed.

Lemma save_all_stored_other σ tasks task_id :
  store_ok σ →
  Forall (λ task, Task_id task ≠ task_id) tasks →
  stored (final (save_all tasks) σ) task_id = stored σ task_id.
Proof.
  revert σ. induction tasks as [|task tasks IH]; intros σ Hok Hall; [done|].
  apply Forall_cons in Hall as [Hne Hall].
  rewrite save_all_cons by done.
  rewrite IH by auto using save_ok. by apply save_stored_other.
Qed.

Lemma save_all_stored_last σ before task after :
  store_ok σ →
  Forall (λ task', Task_id task' ≠ Task_id task) after →
  stored (final (save_all (before ++ task :: after)) σ) (Task_id task)
  = [Task_json task].
Proof.
  revert σ. induction before as [|b before IH]; intros σ Hok Hall; simpl app.
  - rewrite save_all_cons by done.
    rewrite save_all_stored_other by auto using save_ok.
    by apply save_stored.
  - rewrite save_all_cons by done. apply IH; auto using save_ok.
Qed.

Lemma get_ok σ task_id : store_ok σ → store_ok (final (get task_id) σ).
Proof.
  intros Hok. destruct (get_spec σ task_id Hok) as (σ1 & E1 & Hok1 & _).
  unfold final. by rewrite E1.
Qed.

Lemma get_rows σ task_id :
  store_ok σ → rows_of (final (get task_id) σ) = rows_of σ.
Proof.
  intros Hok. destruct (get_spec σ task_id Hok) as (σ1 & E1 & _ & _ & _ & Hr).
  unfold final. by rewrite E1.
Qed.

Lemma save_rows σ task :
  store_ok σ →
  rows_of (final (save task) σ)
  = filter (λ r : row, r.1 ≠ Task_id task) (rows_of σ)
      ++ [(Task_id task, Task_json task)].
Proof.
  intros Hok. destruct (save_spec σ task Hok) as (σ1 & E & _ & _ & _ & Hr).
  unfold final. by rewrite E.
Qed.

(** [save], [get] and [delete] leave the store object and the connections
    as [connect] leaves them. *)
Lemma after_connect σ (op : @call Task) :
  keeps_connection op = true →
  (run_call op σ).1 = (final connect σ).1 ∧
  conns (run_call op σ).2 = conns (final connect σ).2.
Proof.
  intros Hop. destruct op as [|task|task_id|task_id|]; try done; simpl.
  - unfold final at 1 2, save. py_unfold.
    destruct (connect σ) as [[[]|e] σ1] eqn:E; unfold final; rewrite E; [|done].
    simpl. destruct (_conn σ1.1) as [conn|]; [|done].
    apply (statement_keeps conn σ1).
  - unfold final at 1 2, get. py_unfold.
    destruct (connect σ) as [[[]|e] σ1] eqn:E; unfold final; rewrite E; [|done].
    simpl. destruct (_conn σ1.1) as [conn|]; [|done].
    pose proof (statement_keeps conn σ1
      (λ db, match db !! "tasks" with
             | Some rows =>
                 Reads (Return (filter (λ r : row, r.1 = task_id) rows).*2)
             | None => Reads (Raise (no_such_table "tasks"))
             end)) as [Hkeep _].
    unfold final, select_task_data, on_snd in *.
    destruct (on_database conn _ σ1.2) as [[rows|e] w2]; simpl in *; [|done].
    destruct (fetchone rows) as [task_data|]; [|done].
    by destruct (Task_parse_raw task_data).
  - unfold final at 1 2, delete. py_unfold.
    destruct (connect σ) as [[[]|e] σ1] eqn:E; unfold final; rewrite E; [|done].
    simpl. destruct (_conn σ1.1) as [conn|]; [|done].
    apply (statement_keeps conn σ1).
Qed.

(** A call other than [close()] on a usable store without a connection
    leaves the store with a new handle, open on its path. *)
Lemma reopens σ (op : @call Task) :
  store_ok σ →
  _conn σ.1 = None →
  keeps_connection op = true →
  store_ok (run_call op σ) →
  _conn (run_call op σ).1 = Some (length (conns σ.2)) ∧
  conns (run_call op σ).2 !! length (conns σ.2) = Some (Some (db_path σ.1)).
Proof.
  intros Hok Hnone Hop Hok'.
  destruct (after_connect σ op Hop) as [Hs _].
  pose proof (connect_handle σ Hok) as Hh. rewrite Hnone in Hh. simpl in Hh.
  rewrite <- Hs in Hh. split; [done|].
  unfold store_ok in Hok'. rewrite Hh in Hok'. destruct Hok' as [Hc _].
  rewrite Hs in Hc. destruct (connect_spec σ Hok) as (σ1 & E1 & _ & _ & Hp & _).
  unfold final in Hc. rewrite E1 in Hc. simpl in Hc. rewrite Hp in Hc.
  exact Hc.
Qed.

Lemma run_call_ok σ (c : call) :
  store_ok σ → store_ok (run_call c σ) ∧ (unique_ids σ → unique_ids (run_call c σ)).
Proof.
  intros Hok. unfold unique_ids. destruct c as [|task|task_id|task_id|]; simpl.
  - destruct (connect_spec σ Hok) as (σ1 & E & Hok1 & _ & _ & Hr).
    unfold final. rewrite E. simpl. by rewrite Hr.
  - split; [by apply save_ok|by apply save_unique].
  - destruct (get_spec σ task_id Hok) as (σ1 & E & Hok1 & _ & _ & Hr).
    unfold final. rewrite E. simpl. by rewrite Hr.
  - destruct (delete_spec σ task_id Hok) as (σ1 & E & Hok1 & _ & _ & Hr).
    unfold final. rewrite E. simpl. rewrite Hr.
    split; [done|apply NoDup_ids_deleted].
  - split; [by apply close_ok|]. rewrite close_rows.
    destruct (is_temporary (db_path σ.1)); [constructor|done].
Qed.

Lemma run_calls_unique σ (calls : list call) :
  store_ok σ → unique_ids σ → unique_ids (run_calls calls σ).
Proof.
  revert σ. induction calls as [|c calls IH]; intros σ Hok Hu; [done|].
  destruct (run_call_ok σ c Hok) as [Hok1 Hu1]. apply IH; auto.
Qed.

(** C1. Round trip: on a usable store, [save(task)] returns, the table then
    holds exactly the text [task.json()] under [task.id], and [get(task.id)]
    returns the task that this text parses to, which is [task] for a task
    class whose [parse_raw] inverts [json]. *)
Theorem save_then_get_roundtrip σ task :
  store_ok σ →
  Task_parse_raw (Task_json task) = Some task →
  outcome (save task) σ = Return tt ∧
  stored (final (save task) σ) (Task_id task) = [Task_json task] ∧
  outcome (get (Task_id task)) (final (save task) σ) = Return (Some task).
Proof.
  intros Hok Hcodec. split; [by apply save_returns|].
  split; [by apply save_stored|].
  rewrite get_answer, save_stored by auto using save_ok.
  simpl. by rewrite Hcodec.
Qed.

(** C2. Upsert: two saves under one id leave exactly the second text under
    that id and [get] returns the second task; and at any time, whatever
    calls are made on a usable store whose table has at most one row per
    id, the table has at most one row per id. *)
Theorem save_twice_last_write_wins σ task1 task2 :
  store_ok σ →
  Task_id task1 = Task_id task2 →
  Task_parse_raw (Task_json task2) = Some task2 →
  let σ1 := final (save task1) σ in
  let σ2 := final (save task2) σ1 in
  outcome (save task1) σ = Return tt ∧
  outcome (save task2) σ1 = Return tt ∧
  stored σ2 (Task_id task1) = [Task_json task2] ∧
  outcome (get (Task_id task1)) σ2 = Return (Some task2) ∧
  (unique_ids σ → ∀ calls : list call, unique_ids (run_calls calls σ)).
Proof.
  intros Hok Hid Hcodec σ1 σ2.
  assert (store_ok σ1) as Hok1 by by apply save_ok.
  assert (stored σ2 (Task_id task1) = [Task_json task2]) as Hst.
  { rewrite Hid. by apply save_stored. }
  split; [by apply save_returns|]. split; [by apply save_returns|].
  split; [done|]. split.
  - rewrite get_answer, Hst by by apply save_ok.
    simpl. by rewrite Hcodec.
  - intros Hu calls. by apply run_calls_unique.
Qed.

(** C3. An id with no row: on a usable store, [get] returns [None]. *)
Theorem get_absent_returns_None σ task_id :
  store_ok σ →
  stored σ task_id = [] →
  outcome (get task_id) σ = Return None.
Proof. intros Hok Hst. by rewrite get_answer, Hst. Qed.

(** C4. On a usable store, whatever its rows, [delete(id)] returns and a
    [get(id)] that follows returns [None]. *)
Theorem delete_then_get_returns_None σ task_id :
  store_ok σ →
  outcome (delete task_id) σ = Return tt ∧
  stored (final (delete task_id) σ) task_id = [] ∧
  outcome (get task_id) (final (delete task_id) σ) = Return None.
Proof.
  intros Hok. split; [by apply delete_returns|].
  assert (stored (final (delete task_id) σ) task_id = []) as Hst.
  { unfold stored. by rewrite delete_rows, select_deleted. }
  split; [done|].
  rewrite get_answer by by apply delete_ok. by rewrite Hst.
Qed.

(** C5. Deleting an id with no row: [delete] returns, and the table is as
    it was, so every id has the payloads it had. *)
Theorem delete_absent_is_noop σ task_id :
  store_ok σ →
  stored σ task_id = [] →
  outcome (delete task_id) σ = Return tt ∧
  rows_of (final (delete task_id) σ) = rows_of σ ∧
  ∀ task_id', stored (final (delete task_id) σ) task_id' = stored σ task_id'.
Proof.
  intros Hok Hst. split; [by apply delete_returns|].
  assert (rows_of (final (delete task_id) σ) = rows_of σ) as Hr.
  { rewrite delete_rows by done. by apply delete_absent, stored_nil. }
  split; [done|]. intros task_id'. by apply stored_ext.
Qed.

(** C6. [close] returns on every state, leaves the store without a
    connection, and a second [close] changes nothing.  On a usable store
    the handle that was held is closed; the rows that remain are those of
    the file, and none for a temporary database; and each of [save],
    [delete] and [get] called after the [close] opens a new connection on
    the store's path, which the store then holds, and does on the
    remaining rows what it does on an open store: [save] returns and
    replaces or adds its row, [delete] returns and removes the rows of the
    id, [get] answers from the rows and leaves them. *)
Theorem close_idempotent_then_reopen σ task task_id :
  let σc := final close σ in
  let h := length (conns σc.2) in
  let reopened (σ' : state) :=
    _conn σ'.1 = Some h ∧
    conns σ'.2 !! h = Some (Some (db_path σ.1)) ∧
    store_ok σ' in
  (outcome close σ = Return tt ∧
   _conn σc.1 = None ∧
   outcome close σc = Return tt ∧
   final close σc = σc) ∧
  (store_ok σ →
   (∀ c, _conn σ.1 = Some c → conns σc.2 !! c = Some None) ∧
   rows_of σc = (if is_temporary (db_path σ.1) then [] else rows_of σ) ∧
   (outcome (save task) σc = Return tt ∧
    reopened (final (save task) σc) ∧
    rows_of (final (save task) σc)
    = filter (λ r : row, r.1 ≠ Task_id task) (rows_of σc)
        ++ [(Task_id task, Task_json task)]) ∧
   (outcome (delete task_id) σc = Return tt ∧
    reopened (final (delete task_id) σc) ∧
    rows_of (final (delete task_id) σc)
    = filter (λ r : row, r.1 ≠ task_id) (rows_of σc)) ∧
   (outcome (get task_id) σc = answer (stored σc task_id) ∧
    reopened (final (get task_id) σc) ∧
    rows_of (final (get task_id) σc) = rows_of σc)).
Proof.
  intros σc h reopened. split.
  - split; [apply close_returns|]. split; [apply close_conn|].
    split; [apply close_returns|]. by destruct σ as [[path [c|]] w].
  - intros Hok. assert (store_ok σc) as Hokc by by apply close_ok.
    assert (_conn σc.1 = None) as Hnone by apply close_conn.
    assert (db_path σc.1 = db_path σ.1) as Hpath by apply close_path.
    assert (∀ op : @call Task,
              keeps_connection op = true → store_ok (run_call op σc) →
              reopened (run_call op σc)) as Hre.
    { intros op Hop Hok'.
      destruct (reopens σc op Hokc Hnone Hop Hok') as [Hh Hc].
      unfold reopened. by rewrite <- Hpath. }
    split; [intros c Hc; by apply close_handle|].
    split; [apply close_rows|]. split; [|split].
    + split; [by apply save_returns|].
      split; [apply (Hre (Save task)); [done|by apply save_ok]|].
      by apply save_rows.
    + split; [by apply delete_returns|].
      split; [apply (Hre (Delete task_id)); [done|by apply delete_ok]|].
      by apply delete_rows.
    + split; [by apply get_answer|].
      split; [apply (Hre (Get task_id)); [done|by apply get_ok]|].
      by apply get_rows.
Qed.

(** C7, amended. Durability, for a store whose path names a file: after
    any sequence of saves on a usable store and a [close], the last text
    saved under an id is still the one recorded under it, and [get], from
    the same store object or from a new one made for the same path,
    reopens the file and returns that task.  The paths [":memory:"] and
    the empty string, which name a temporary database, are left out: what
    was saved there is gone at the [close]. *)
Theorem saved_records_survive_close σ before task after :
  store_ok σ →
  is_temporary (db_path σ.1) = false →
  Forall (λ task', Task_id task' ≠ Task_id task) after →
  Task_parse_raw (Task_json task) = Some task →
  let σ1 := final (save_all (before ++ task :: after)) σ in
  let σ2 := final close σ1 in
  outcome (save_all (before ++ task :: after)) σ = Return tt ∧
  outcome close σ1 = Return tt ∧
  σ2.1 = __init__ (db_path σ.1) ∧
  rows_of σ2 = rows_of σ1 ∧
  stored σ2 (Task_id task) = [Task_json task] ∧
  outcome (get (Task_id task)) σ2 = Return (Some task) ∧
  outcome (get (Task_id task)) (__init__ (db_path σ.1), σ2.2)
  = Return (Some task).
Proof.
  intros Hok Hfile Hafter Hcodec σ1 σ2.
  destruct (save_all_spec σ (before ++ task :: after) Hok) as (σ1' & E1 & Hok1 & Hp1).
  assert (σ1 = σ1') as Hσ1 by (unfold σ1, final; by rewrite E1).
  rewrite <- Hσ1 in *. clear Hσ1 σ1'.
  assert (rows_of σ2 = rows_of σ1) as Hrows.
  { unfold σ2. by rewrite close_rows, Hp1, Hfile. }
  assert (σ2.1 = __init__ (db_path σ.1)) as Hself.
  { pose proof (close_conn σ1) as Hc. pose proof (close_path σ1) as Hp.
    fold σ2 in Hc, Hp. destruct σ2 as [[path conn] w]. simpl in *.
    unfold __init__. by rewrite Hc, Hp, Hp1. }
  assert (stored σ2 (Task_id task) = [Task_json task]) as Hst.
  { rewrite (stored_ext σ1) by done. by apply save_all_stored_last. }
  assert (outcome (get (Task_id task)) σ2 = Return (Some task)) as Hget.
  { rewrite get_answer, Hst by by apply close_ok. simpl. by rewrite Hcodec. }
  split; [unfold outcome; by rewrite E1|]. split; [apply close_returns|].
  split; [done|]. split; [done|]. split; [done|]. split; [done|].
  rewrite <- Hself. by destruct σ2.
Qed.

(** C8. A stored text that does not parse: [get] raises the validation
    error of [Task.parse_raw]; it returns nothing and leaves the rows as
    they were. *)
Theorem get_malformed_raises σ task_id task_data rest :
  store_ok σ →
  stored σ task_id = task_data :: rest →
  Task_parse_raw task_data = None →
  outcome (get task_id) σ = Raise ValidationError ∧
  rows_of (final (get task_id) σ) = rows_of σ.
Proof.
  intros Hok Hst Hbad.
  destruct (get_spec σ task_id Hok) as (σ1 & E1 & _ & _ & _ & Hr).
  unfold outcome, final. rewrite E1, Hst. simpl. by rewrite Hbad.
Qed.

(** C9, amended. A path that SQLite cannot open or create: [connect], and
    with it [save], [get] and [delete], raise the [OperationalError] of
    [sqlite3.connect]; the store stays without a connection and nothing
    is written.  A database file that is there and may only be read is
    not such a path: it is opened, and only a write is refused. *)
Theorem unopenable_path_raises σ task task_id :
  _conn σ.1 = None →
  is_temporary (db_path σ.1) = false →
  files σ.2 !! db_path σ.1 = Some Unopenable →
  connect σ = (Raise cannot_open, σ) ∧
  save task σ = (Raise cannot_open, σ) ∧
  get task_id σ = (Raise cannot_open, σ) ∧
  delete task_id σ = (Raise cannot_open, σ).
Proof.
  destruct σ as [[path conn] [fs cs ts]]. simpl. intros -> Ht Hf.
  assert (connect ({| db_path := path; _conn := None |}, World fs cs ts)
          = (Raise cannot_open,
             ({| db_path := path; _conn := None |}, World fs cs ts)))
    as Hconnect.
  { unfold connect. py_unfold. unfold sqlite3.connect. simpl. by rewrite Ht, Hf. }
  unfold save, get, delete. py_unfold. by rewrite Hconnect.
Qed.

End claims.

(** *** The theorems at work on concrete stores *)

#[local] Existing Instance examples.SimpleTask_class.

Lemma fresh_ok : store_ok examples.fresh.
Proof. reflexivity. Defined.

Lemma saved_ok : store_ok examples.saved.
Proof. vm_compute. split; [reflexivity|]. eexists. reflexivity. Defined.

Lemma corrupted_ok : store_ok examples.corrupted.
Proof. reflexivity. Defined.

Lemma save_then_get_roundtrip_witness :
  store_ok examples.fresh ∧
  Task_parse_raw (Task_json examples.pending) = Some examples.pending ∧
  outcome (save examples.pending) examples.fresh = Return tt ∧
  stored (final (save examples.pending) examples.fresh) (Task_id examples.pending)
    = [Task_json examples.pending] ∧
  outcome (get (Task_id examples.pending)) (final (save examples.pending) examples.fresh)
    = Return (Some examples.pending).
Proof.
  split; [exact fresh_ok|]. split; [reflexivity|].
  apply (save_then_get_roundtrip examples.fresh examples.pending);
    [exact fresh_ok|reflexivity].
Defined.

Lemma save_twice_last_write_wins_witness :
  store_ok examples.fresh ∧
  Task_id examples.pending = Task_id examples.done ∧
  outcome (get (Task_id examples.pending))
    (final (save examples.done) (final (save examples.pending) examples.fresh))
    = Return (Some examples.done).
Proof.
  split; [exact fresh_ok|]. split; [reflexivity|].
  apply (save_twice_last_write_wins examples.fresh examples.pending examples.done);
    [exact fresh_ok|reflexivity|reflexivity].
Defined.

Lemma get_absent_returns_None_witness :
  store_ok examples.saved ∧
  stored examples.saved "task-2" = [] ∧
  outcome (get (Task:=examples.SimpleTask) "task-2") examples.saved = Return None.
Proof.
  split; [exact saved_ok|]. split; [reflexivity|].
  apply (get_absent_returns_None examples.saved "task-2");
    [exact saved_ok|reflexivity].
Defined.

Lemma delete_then_get_returns_None_witness :
  store_ok examples.saved ∧
  outcome (delete "task-1") examples.saved = Return tt ∧
  stored (final (delete "task-1") examples.saved) "task-1" = [] ∧
  outcome (get (Task:=examples.SimpleTask) "task-1")
    (final (delete "task-1") examples.saved) = Return None.
Proof.
  split; [exact saved_ok|].
  apply (delete_then_get_returns_None examples.saved "task-1"). exact saved_ok.
Defined.

Lemma delete_absent_is_noop_witness :
  store_ok examples.saved ∧
  stored examples.saved "task-2" = [] ∧
  outcome (delete "task-2") examples.saved = Return tt ∧
  rows_of (final (delete "task-2") examples.saved) = rows_of examples.saved ∧
  ∀ task_id',
    stored (final (delete "task-2") examples.saved) task_id'
    = stored examples.saved task_id'.
Proof.
  split; [exact saved_ok|]. split; [reflexivity|].
  apply (delete_absent_is_noop examples.saved "task-2");
    [exact saved_ok|reflexivity].
Defined.

Lemma close_idempotent_then_reopen_witness :
  store_ok examples.saved ∧
  final close (final close examples.saved) = final close examples.saved ∧
  _conn (final (save examples.other) (final close examples.saved)).1
    = Some (length (conns (final close examples.saved).2)) ∧
  rows_of (final (save examples.other) (final close examples.saved))
    = filter (λ r : row, r.1 ≠ Task_id examples.other)
        (rows_of (final close examples.saved))
      ++ [(Task_id examples.other, Task_json examples.other)] ∧
  outcome (get "task-1") (final close examples.saved)
    = answer (stored (final close examples.saved) "task-1").
Proof.
  split; [exact saved_ok|].
  destruct (close_idempotent_then_reopen examples.saved examples.other "task-1")
    as [(_ & _ & _ & Hidem) Hreopen].
  split; [exact Hidem|].
  destruct (Hreopen saved_ok)
    as (_ & _ & (_ & (Hhandle & _) & Hsave) & _ & (Hget & _)).
  split; [exact Hhandle|]. split; [exact Hsave|exact Hget].
Defined.

(** The scenario of the specification, run from a new store. *)
Example scenario :
  let σ1 := final (save examples.pending) examples.fresh in
  let σ2 := final (save examples.done) (final (get "task-1") σ1) in
  let σ3 := final (delete "task-1") (final (get "task-1") σ2) in
  outcome (get "task-1") σ1 = Return (Some examples.pending) ∧
  outcome (get "task-1") σ2 = Return (Some examples.done) ∧
  outcome (get (Task:=examples.SimpleTask) "task-1") σ3 = Return None ∧
  outcome (get "task-1") (final close σ2) = Return (Some examples.done).
Proof. vm_compute. repeat split. Qed.

(** Against C7 for every location: on the temporary database
    [":memory:"] a task is saved and read back, the store is closed, and
    the next [get], from the same store object or from a new one, opens
    an empty database and returns [None]. *)
Lemma in_memory_records_do_not_survive_close :
  store_ok examples.in_memory ∧
  Task_parse_raw (Task_json examples.pending) = Some examples.pending ∧
  outcome (save_all ([] ++ examples.pending :: [])) examples.in_memory
    = Return tt ∧
  outcome (get (Task_id examples.pending))
    (final (save_all ([] ++ examples.pending :: [])) examples.in_memory)
    = Return (Some examples.pending) ∧
  outcome (get (Task_id examples.pending))
    (final close
       (final (save_all ([] ++ examples.pending :: [])) examples.in_memory))
    = Return None ∧
  outcome (get (Task_id examples.pending))
    (__init__ (db_path examples.in_memory.1),
     (final close
        (final (save_all ([] ++ examples.pending :: [])) examples.in_memory)).2)
    = Return None.
Proof. vm_compute. repeat split. Qed.

Lemma saved_records_survive_close_witness :
  store_ok examples.fresh ∧
  is_temporary (db_path examples.fresh.1) = false ∧
  Forall (λ task', Task_id task' ≠ Task_id examples.done) [examples.other] ∧
  outcome (get (Task_id examples.done))
    (__init__ (db_path examples.fresh.1),
     (final close
        (final (save_all ([examples.pending] ++ examples.done :: [examples.other]))
           examples.fresh)).2)
    = Return (Some examples.done).
Proof.
  assert (Forall (λ task', Task_id task' ≠ Task_id examples.done) [examples.other])
    as Hafter by (repeat constructor; discriminate).
  split; [exact fresh_ok|]. split; [reflexivity|]. split; [exact Hafter|].
  apply (saved_records_survive_close examples.fresh [examples.pending]
           examples.done [examples.other]);
    [exact fresh_ok|reflexivity|exact Hafter|reflexivity].
Defined.

Lemma get_malformed_raises_witness :
  store_ok examples.corrupted ∧
  stored examples.corrupted "task-9" = ["garbage"] ∧
  Task_parse_raw (Task:=examples.SimpleTask) "garbage" = None ∧
  outcome (get (Task:=examples.SimpleTask) "task-9") examples.corrupted
    = Raise ValidationError.
Proof.
  split; [exact corrupted_ok|]. split; [reflexivity|]. split; [reflexivity|].
  apply (get_malformed_raises examples.corrupted "task-9" "garbage" []);
    [exact corrupted_ok|reflexivity|reflexivity].
Defined.

(** Against C9 for every location that is not writable: on a database
    file that may only be read and has the table, [connect] returns,
    [get] returns the task, and the store holds a connection; only the
    write of [save] and of [delete] is refused, with the store left
    open. *)
Lemma read_only_database_opens :
  _conn examples.read_only.1 = None ∧
  not_writable_or_creatable examples.read_only.2 (db_path examples.read_only.1)
    = true ∧
  outcome connect examples.read_only = Return tt ∧
  _conn (final connect examples.read_only).1 = Some 0 ∧
  outcome (get "task-1") examples.read_only = Return (Some examples.pending) ∧
  outcome (save examples.done) examples.read_only = Raise readonly_database ∧
  outcome (delete "task-1") examples.read_only = Raise readonly_database ∧
  _conn (final (save examples.done) examples.read_only).1 = Some 0.
Proof. vm_compute. repeat split. Qed.

Lemma unopenable_path_raises_witness :
  _conn examples.unreachable.1 = None ∧
  is_temporary (db_path examples.unreachable.1) = false ∧
  files examples.unreachable.2 !! db_path examples.unreachable.1 = Some Unopenable ∧
  save examples.pending examples.unreachable
    = (Raise cannot_open, examples.unreachable).
Proof.
  split; [reflexivity|]. split; [reflexivity|]. split; [reflexivity|].
  apply (unopenable_path_raises examples.unreachable examples.pending "task-1");
    reflexivity.
Defined.

End db_task_store_props.

(** * Properties of the forecast tool *)

Module weather_tools_props.

Import weather_tools.

Ltac run_py :=
  unfold mbind, mret, M_bind, M_ret, bind, ret, raise, try_except in *.

(** The order of binary floats: strictly below excludes above or equal. *)
Lemma SFcompare_antisym x y c :
  SFcompare x y = Some c → SFcompare y x = Some (CompOpp c).
Proof.
  destruct x as [sx|sx| |sx mx ex], y as [sy|sy| |sy my ey]; simpl;
    try discriminate;
    try (intros [= <-]; reflexivity);
    try (destruct sx; intros [= <-]; reflexivity);
    try (destruct sy; intros [= <-]; reflexivity);
    try (destruct sx, sy; intros [= <-]; reflexivity).
  intros [= <-]. f_equal.
  rewrite (Z.compare_antisym ex ey).
  change (Pos.compare_cont Eq my mx) with (Pos.compare_cont (CompOpp Eq) my mx).
  rewrite <- (Pos.compare_cont_antisym mx my Eq).
  destruct sx, sy; simpl; try reflexivity;
    destruct (ex ?= ey)%Z; simpl; reflexivity.
Qed.

Lemma SFltb_not_SFleb x y : SFltb x y = true → SFleb y x = false.
Proof.
  unfold SFltb, SFleb. destruct (SFcompare x y) as [[]|] eqn:E; try discriminate.
  intros _. by rewrite (SFcompare_antisym _ _ _ E).
Qed.

Section tools.

Variable server : list string → string → http_result.
Variable format_4f : spec_float → string.
Variable repr : json → string.
Variable strip : string → string.

Lemma outside_not_in_range latitude longitude :
  outside (-90) 90 latitude ∨ outside (-180) 180 longitude →
  in_range latitude longitude = false.
Proof.
  unfold in_range.
  intros [[Hlo|Hhi]|[Hlo|Hhi]]; apply SFltb_not_SFleb in Hlo || apply SFltb_not_SFleb in Hhi.
  - by rewrite Hlo.
  - rewrite Hhi. by destruct (SFleb _ latitude).
  - rewrite Hlo. by destruct (SFleb _ latitude), (SFleb latitude _).
  - rewrite Hhi. by destruct (SFleb _ latitude), (SFleb latitude _), (SFleb _ longitude).
Qed.

(** A well-formed period formats without raising, in any state. *)
Lemma format_well_formed period :
  well_formed_period period = true →
  ∃ text, ∀ S (s : S),
    format_forecast_period repr strip period s = (Return text, s).
Proof.
  destruct period as [| | | | |l|d]; try discriminate. simpl.
  destruct (assoc "detailedForecast" d) as [[]|] eqn:E; try discriminate; intros _;
    eexists; intros S st; unfold format_forecast_period, dict_get; run_py;
    rewrite E; simpl; reflexivity.
Qed.

Lemma mapM_format_well_formed periods :
  forallb well_formed_period periods = true →
  ∃ forecasts,
    length forecasts = length periods ∧
    ∀ S (s : S),
      mapM (format_forecast_period repr strip) periods s = (Return forecasts, s).
Proof.
  induction periods as [|period periods IH]; simpl.
  - intros _. by exists [].
  - intros [Hp Hps]%andb_prop.
    destruct (format_well_formed period Hp) as [text Ht].
    destruct (IH Hps) as (forecasts & Hlen & Hf).
    exists (text :: forecasts). split; [simpl; by rewrite Hlen|].
    intros S s. run_py. by rewrite Ht, Hf.
Qed.

(** The run of [get_forecast] when both requests are answered with
    documents of the expected shape. *)
Lemma get_forecast_success latitude longitude requests
    points_data points_properties url forecast_data forecast_properties periods :
  in_range latitude longitude = true →
  server requests (point_endpoint format_4f latitude longitude)
    = Answer (Response None (Some (JDict points_data))) →
  assoc "properties" points_data = Some (JDict points_properties) →
  assoc "forecast" points_properties = Some (JStr url) →
  url ≠ "" →
  server (requests ++ [point_endpoint format_4f latitude longitude]) url
    = Answer (Response None (Some (JDict forecast_data))) →
  assoc "properties" forecast_data = Some (JDict forecast_properties) →
  assoc "periods" forecast_properties = Some (JList periods) →
  periods ≠ [] →
  get_forecast server format_4f repr strip latitude longitude requests =
    (forecasts ← mapM (format_forecast_period repr strip) (take 5 periods);
     mret (str_join (nl +:+ "---" +:+ nl) forecasts))
      (requests ++ [point_endpoint format_4f latitude longitude] ++ [url]).
Proof.
  intros Hin Hpoints Hpp Hurl Hne Hforecast Hfp Hperiods Hnonempty.
  unfold get_forecast. rewrite Hin. simpl.
  unfold try_except at 1. unfold fetch at 1, http_client_get. run_py.
  rewrite Hpoints. simpl. rewrite Hpp. simpl. rewrite Hurl. simpl.
  assert (String.eqb url "" = false) as -> by by apply String.eqb_neq.
  simpl. unfold fetch, http_client_get. run_py.
  rewrite Hforecast. simpl. rewrite Hfp. simpl. rewrite Hperiods. simpl.
  rewrite bool_decide_eq_false_2 by done. simpl.
  by rewrite <- app_assoc.
Qed.

(** C10. Outside the ranges, [get_forecast] returns the fixed text and the
    list of requests is as it was; when both requests are answered with
    documents of the expected shape whose first five periods are well
    formed, it makes these two requests and returns the texts of the
    first five periods, at most five of them, joined by the separator. *)
Theorem get_forecast_range_check_and_five_periods :
  (∀ latitude longitude requests,
     outside (-90) 90 latitude ∨ outside (-180) 180 longitude →
     get_forecast server format_4f repr strip latitude longitude requests =
       (Return "Invalid latitude or longitude provided.", requests)) ∧
  (∀ latitude longitude requests
     points_data points_properties url forecast_data forecast_properties periods,
     in_range latitude longitude = true →
     server requests (point_endpoint format_4f latitude longitude)
       = Answer (Response None (Some (JDict points_data))) →
     assoc "properties" points_data = Some (JDict points_properties) →
     assoc "forecast" points_properties = Some (JStr url) →
     url ≠ "" →
     server (requests ++ [point_endpoint format_4f latitude longitude]) url
       = Answer (Response None (Some (JDict forecast_data))) →
     assoc "properties" forecast_data = Some (JDict forecast_properties) →
     assoc "periods" forecast_properties = Some (JList periods) →
     periods ≠ [] →
     forallb well_formed_period (take 5 periods) = true →
     ∃ forecasts,
       mapM (format_forecast_period repr strip) (take 5 periods) requests
         = (Return forecasts, requests) ∧
       length forecasts = length periods `min` 5 ∧
       length forecasts ≤ 5 ∧
       get_forecast server format_4f repr strip latitude longitude requests =
         (Return (str_join (nl +:+ "---" +:+ nl) forecasts),
          requests ++ [point_endpoint format_4f latitude longitude; url])).
Proof.
  split.
  - intros latitude longitude requests Hout.
    unfold get_forecast. by rewrite (outside_not_in_range _ _ Hout).
  - intros latitude longitude requests points_data points_properties url
      forecast_data forecast_properties periods
      Hin Hpoints Hpp Hurl Hne Hforecast Hfp Hperiods Hnonempty Hwf.
    destruct (mapM_format_well_formed _ Hwf) as (forecasts & Hlen & Hf).
    rewrite length_take in Hlen.
    exists forecasts. split; [apply Hf|]. split; [lia|]. split; [lia|].
    erewrite get_forecast_success by done.
    run_py. by rewrite Hf.
Qed.

End tools.

(** *** The theorem at work on the example service *)

Lemma get_forecast_range_check_and_five_periods_witness :
  get_forecast examples.server examples.format_4f examples.repr examples.strip
    (float 91) (float (-75)) []
    = (Return "Invalid latitude or longitude provided.", []) ∧
  ∃ forecasts,
    length forecasts = 5 ∧
    get_forecast examples.server examples.format_4f examples.repr examples.strip
      (float 40) (float (-75)) []
    = (Return (str_join (nl +:+ "---" +:+ nl) forecasts),
       ["/points/40.0000,-75.0000"; examples.forecast_url]).
Proof.
  destruct (get_forecast_range_check_and_five_periods examples.server
              examples.format_4f examples.repr examples.strip) as [Hrange Hfive].
  split.
  - apply Hrange. left. right. reflexivity.
  - destruct (Hfive (float 40) (float (-75)) []
                [("properties", JDict [("forecast", JStr examples.forecast_url)])]
                [("forecast", JStr examples.forecast_url)]
                examples.forecast_url
                [("properties", JDict [("periods", JList examples.six_periods)])]
                [("periods", JList examples.six_periods)]
                examples.six_periods)
      as (forecasts & _ & Hlen & _ & Hget);
      [reflexivity|reflexivity|reflexivity|reflexivity|discriminate
      |reflexivity|reflexivity|reflexivity|discriminate|reflexivity|].
    exists forecasts. split; [exact Hlen|exact Hget].
Defined.

End weather_tools_props.

(** * Further properties of the task store *)

Module db_task_store_more.

Import sqlite3 db_task_store db_task_store_view db_task_store_props.

(** The map finds, under an id, the first row selected for it. *)
Lemma lookup_rows (rows : table) (k : string) :
  (list_to_map rows : gmap string string) !! k
  = head (filter (λ r : row, r.1 = k) rows).*2.
Proof.
  induction rows as [|[i d] rows IH]; [done|].
  rewrite list_to_map_cons, filter_cons. simpl.
  destruct (decide (i = k)) as [->|Hne].
  - by rewrite lookup_insert_eq.
  - by rewrite lookup_insert_ne.
Qed.

Lemma contents_lookup σ task_id :
  contents σ !! task_id = head (stored σ task_id).
Proof. apply lookup_rows. Qed.

Lemma contents_ext σ σ' : rows_of σ' = rows_of σ → contents σ' = contents σ.
Proof. unfold contents. by intros ->. Qed.

Lemma contents_replaced (rows : table) id task_data :
  (list_to_map (filter (λ r : row, r.1 ≠ id) rows ++ [(id, task_data)])
     : gmap string string)
  = <[id := task_data]> (list_to_map rows).
Proof.
  apply map_eq. intros k. rewrite lookup_rows.
  destruct (decide (k = id)) as [->|Hne].
  - by rewrite select_replaced, lookup_insert_eq.
  - by rewrite select_replaced_other, lookup_insert_ne, lookup_rows.
Qed.

Lemma contents_deleted (rows : table) id :
  (list_to_map (filter (λ r : row, r.1 ≠ id) rows) : gmap string string)
  = base.delete id (list_to_map rows).
Proof.
  apply map_eq. intros k. rewrite lookup_rows.
  destruct (decide (k = id)) as [->|Hne].
  - by rewrite select_deleted, lookup_delete_eq.
  - by rewrite select_other, lookup_delete_ne, lookup_rows.
Qed.

Section Task.

Context {Task : Type} `{TaskClass Task}.

Implicit Types (σ : state) (task : Task) (task_id : string) (c : @call Task).

Lemma run_call_path σ c :
  store_ok σ → db_path (run_call c σ).1 = db_path σ.1.
Proof.
  intros Hok. destruct c as [|task|task_id|task_id|]; simpl.
  - destruct (connect_spec σ Hok) as (σ1 & E & _ & _ & Hp & _).
    unfold final. by rewrite E.
  - destruct (save_spec σ task Hok) as (σ1 & E & _ & _ & Hp & _).
    unfold final. by rewrite E.
  - destruct (get_spec σ task_id Hok) as (σ1 & E & _ & _ & Hp & _).
    unfold final. by rewrite E.
  - destruct (delete_spec σ task_id Hok) as (σ1 & E & _ & _ & Hp & _).
    unfold final. by rewrite E.
  - apply close_path.
Qed.

Lemma contents_run_call σ c :
  store_ok σ →
  contents (run_call c σ)
  = map_effect (is_temporary (db_path σ.1)) c (contents σ).
Proof.
  intros Hok. destruct c as [|task|task_id|task_id|]; simpl.
  - destruct (connect_spec σ Hok) as (σ1 & E & _ & _ & _ & Hr).
    unfold final. rewrite E. by apply contents_ext.
  - destruct (save_spec σ task Hok) as (σ1 & E & _ & _ & _ & Hr).
    unfold final, contents. rewrite E. simpl. rewrite Hr.
    apply contents_replaced.
  - destruct (get_spec σ task_id Hok) as (σ1 & E & _ & _ & _ & Hr).
    unfold final. rewrite E. by apply contents_ext.
  - unfold contents. rewrite delete_rows by done. apply contents_deleted.
  - unfold contents. rewrite close_rows.
    by destruct (is_temporary (db_path σ.1)).
Qed.

Lemma run_calls_ok σ (calls : list (@call Task)) :
  store_ok σ → store_ok (run_calls calls σ).
Proof.
  revert σ. induction calls as [|c calls IH]; intros σ Hok; [done|].
  apply IH. by apply run_call_ok.
Qed.

(** X1. The store refines a finite map: after any sequence of calls on a
    usable store, the payload found under each id is the one that the
    same sequence of inserts and deletes leaves in the map, where a
    [close] empties the map of a store on a temporary database and
    leaves the map of a store on a file. *)
Theorem calls_refine_map σ (calls : list (@call Task)) :
  store_ok σ →
  store_ok (run_calls calls σ) ∧
  contents (run_calls calls σ)
  = foldl (λ m c, map_effect (is_temporary (db_path σ.1)) c m)
      (contents σ) calls.
Proof.
  revert σ. induction calls as [|c calls IH]; intros σ Hok; [done|].
  simpl. destruct (IH (run_call c σ)) as [Hok' Hc]; [by apply run_call_ok|].
  split; [done|]. by rewrite Hc, run_call_path, contents_run_call.
Qed.

(** X2. [get] is the lookup of that map: on a usable store, [get(id)]
    returns [None] when the map has no entry for the id, and otherwise
    what [Task.parse_raw] makes of the entry: the task, or its validation
    error. *)
Theorem get_is_map_lookup σ task_id :
  store_ok σ →
  outcome (get task_id) σ
  = match contents σ !! task_id with
    | None => Return None
    | Some task_data =>
        match Task_parse_raw task_data with
        | Some task => Return (Some task)
        | None => Raise ValidationError
        end
    end.
Proof.
  intros Hok. rewrite get_answer, contents_lookup by done.
  by destruct (stored σ task_id).
Qed.

Lemma delete_deleted (rows : table) id :
  filter (λ r : row, r.1 ≠ id) (filter (λ r : row, r.1 ≠ id) rows)
  = filter (λ r : row, r.1 ≠ id) rows.
Proof.
  induction rows as [|r rows IH]; [done|].
  rewrite (filter_cons _ r). destruct (decide (r.1 ≠ id)); [|done].
  rewrite filter_cons. destruct (decide (r.1 ≠ id)); [|done]. by rewrite IH.
Qed.

Lemma delete_replaced (rows : table) id task_data :
  filter (λ r : row, r.1 ≠ id)
    (filter (λ r : row, r.1 ≠ id) rows ++ [(id, task_data)])
  = filter (λ r : row, r.1 ≠ id) rows.
Proof.
  rewrite filter_app, delete_deleted, filter_cons. simpl.
  destruct (decide (id ≠ id)); [done|]. by rewrite filter_nil, app_nil_r.
Qed.

(** X3. Under one id the last write is all that remains: a save after a
    save or after a delete, and a delete after a save or after a delete,
    leave the very rows that the second call alone would leave. *)
Theorem last_call_absorbs σ task1 task2 :
  store_ok σ →
  Task_id task1 = Task_id task2 →
  let id := Task_id task2 in
  rows_of (final (save task2) (final (save task1) σ))
    = rows_of (final (save task2) σ) ∧
  rows_of (final (save task2) (final (delete id) σ))
    = rows_of (final (save task2) σ) ∧
  rows_of (final (delete id) (final (save task1) σ))
    = rows_of (final (delete id) σ) ∧
  rows_of (final (delete id) (final (delete id) σ))
    = rows_of (final (delete id) σ).
Proof.
  intros Hok Hid id. repeat split.
  - rewrite !save_rows by auto using save_ok. rewrite Hid.
    by rewrite delete_replaced.
  - rewrite !save_rows, delete_rows by auto using delete_ok.
    by rewrite delete_deleted.
  - rewrite !delete_rows, save_rows by auto using save_ok. rewrite Hid.
    by rewrite delete_replaced.
  - rewrite !delete_rows by auto using delete_ok. by rewrite delete_deleted.
Qed.

(** X4. Counting rows, on a usable store whose ids are unique: a save adds
    one row when the id is new and none when it is known, a delete removes
    one row when the id is known and none when it is not; and the rows
    are as many as the ids of the map. *)
Theorem row_count σ task task_id :
  store_ok σ →
  unique_ids σ →
  length (rows_of σ) = size (contents σ) ∧
  length (rows_of (final (save task) σ))
    = match contents σ !! Task_id task with
      | Some _ => length (rows_of σ)
      | None => S (length (rows_of σ))
      end ∧
  length (rows_of (final (delete task_id) σ))
    = match contents σ !! task_id with
      | Some _ => pred (length (rows_of σ))
      | None => length (rows_of σ)
      end.
Proof.
  intros Hok Hu.
  assert (length (rows_of σ) = size (contents σ)) as Hsize.
  { symmetry. by apply map_size_list_to_map. }
  split; [done|]. split.
  - rewrite <- (map_size_list_to_map (M:=gmap string))
      by (by apply save_unique).
    rewrite save_rows, contents_replaced, map_size_insert by done.
    fold (contents σ). rewrite Hsize. by destruct (contents σ !! Task_id task).
  - rewrite <- (map_size_list_to_map (M:=gmap string)).
    + rewrite delete_rows, contents_deleted, map_size_delete by done.
      fold (contents σ). rewrite Hsize. by destruct (contents σ !! task_id).
    + rewrite delete_rows by done. by apply NoDup_ids_deleted.
Qed.

(** *** Connections *)

Lemma open_from_ge h cs h' : h' ∈ open_from h cs → h ≤ h'.
Proof.
  revert h. induction cs as [|[p|] cs IH]; intros h; simpl.
  - by intros ?%elem_of_nil.
  - intros [->|Hin%IH]%elem_of_cons; lia.
  - intros Hin%IH. lia.
Qed.

Lemma open_from_app h cs path :
  open_from h (cs ++ [Some path]) = open_from h cs ++ [h + length cs].
Proof.
  revert h. induction cs as [|[p|] cs IH]; intros h; simpl.
  - by rewrite Nat.add_0_r.
  - rewrite IH. by replace (S h + length cs) with (h + S (length cs)) by lia.
  - rewrite IH. by replace (S h + length cs) with (h + S (length cs)) by lia.
Qed.

Lemma open_from_close h cs (n : nat) :
  open_from h cs = [h + n] → open_from h (<[n := None]> cs) = [].
Proof.
  revert h n. induction cs as [|[p|] cs IH]; intros h n; simpl; [done| |].
  - intros [= Hh Hrest]. assert (n = 0) as -> by lia. done.
  - destruct n as [|n]; simpl.
    + intros Hopen. exfalso.
      assert (h + 0 ∈ open_from (S h) cs) as Hin by (rewrite Hopen; left).
      apply open_from_ge in Hin. lia.
    + intros Hopen. apply IH. rewrite Hopen. f_equal. lia.
Qed.

Lemma tidy_ext σ σ' :
  σ'.1 = σ.1 → conns σ'.2 = conns σ.2 → tidy σ → tidy σ'.
Proof. unfold tidy, open_handles. by intros -> ->. Qed.

Lemma tidy_connect σ : tidy σ → tidy (final connect σ).
Proof.
  destruct σ as [[path [conn|]] [fs cs ts]].
  - intros Ht. unfold final. by rewrite connect_open by by eexists.
  - unfold tidy, open_handles. simpl. intros Hopen.
    destruct (connect_closed path fs cs ts) as [E|(r & fs' & ts' & E)];
      unfold final; rewrite E; simpl; [done|].
    by rewrite open_from_app, Hopen.
Qed.

Lemma tidy_close σ :
  tidy σ → tidy (final close σ) ∧ open_handles (final close σ).2 = [].
Proof.
  destruct σ as [[path [conn|]] [fs cs ts]];
    unfold tidy, open_handles, final, close; py_unfold; simpl.
  - intros Hopen. split; exact (open_from_close 0 cs conn Hopen).
  - done.
Qed.

Lemma tidy_run_call σ c : tidy σ → tidy (run_call c σ).
Proof.
  intros Ht. destruct (keeps_connection c) eqn:Hc.
  - destruct (after_connect σ c Hc) as [Hs Hcs].
    by apply (tidy_ext (final connect σ)); [..|apply tidy_connect].
  - destruct c; try done. by apply tidy_close.
Qed.

(** X5. No connection leaks: when the only open connection, if any, is
    the one the store holds, this is still so after any sequence of
    calls, and after a final [close()] no connection is open at all. *)
Theorem no_connection_leak σ (calls : list (@call Task)) :
  tidy σ →
  tidy (run_calls calls σ) ∧
  open_handles (run_calls (calls ++ [Close]) σ).2 = [].
Proof.
  intros Ht.
  assert (tidy (run_calls calls σ)) as Ht'.
  { revert σ Ht. induction calls as [|c calls IH]; intros σ Ht; [done|].
    apply IH. by apply tidy_run_call. }
  split; [done|]. unfold run_calls. rewrite foldl_app. simpl.
  by apply tidy_close.
Qed.

(** X6. No needless reconnection: while the store holds a connection,
    calls other than [close()] open no connection, close none, and
    leave the store object as it is. *)
Theorem connection_is_reused σ (calls : list (@call Task)) :
  is_Some (_conn σ.1) →
  forallb keeps_connection calls = true →
  (run_calls calls σ).1 = σ.1 ∧
  conns (run_calls calls σ).2 = conns σ.2.
Proof.
  revert σ. induction calls as [|c calls IH]; intros σ Hconn Hcalls; [done|].
  apply andb_prop in Hcalls as [Hc Hcalls]. simpl.
  destruct (after_connect σ c Hc) as [Hs Hcs].
  unfold final in Hs, Hcs. rewrite (connect_open σ Hconn) in Hs, Hcs.
  simpl in Hs, Hcs.
  destruct (IH (run_call c σ)) as [Hs' Hcs']; [by rewrite Hs|done|].
  by rewrite Hs', Hcs', Hs, Hcs.
Qed.

(** *** What a store leaves alone *)

(** A file is as it was, or it was at the journal's path and is gone. *)
Lemma frame_trans (fs fs' fs'' : gmap string file) (path j : string) :
  fs' !! path = fs !! path ∨ path = j ∧ fs' !! path = None →
  fs'' !! path = fs' !! path ∨ path = j ∧ fs'' !! path = None →
  fs'' !! path = fs !! path ∨ path = j ∧ fs'' !! path = None.
Proof.
  intros [E1|[Hj E1]] [E2|[Hj' E2]]; rewrite ?E2, ?E1; auto.
Qed.

Lemma statement_frame {A} (conn : Connection) σ path name
    (stmt : gmap string table → effect A) :
  _conn σ.1 = Some conn →
  store_ok σ →
  (∀ db a db', stmt db = Writes a db' → db' !! name = db !! name) →
  path ≠ db_path σ.1 →
  let σ' := final (on_snd (on_database conn stmt)) σ in
  let σ'' := final (on_snd (transaction (on_database conn stmt))) σ in
  ((files σ'.2 !! path = files σ.2 !! path ∨
    path = journal (db_path σ.1) ∧ files σ'.2 !! path = None) ∧
   table_at σ' name = table_at σ name) ∧
  ((files σ''.2 !! path = files σ.2 !! path ∨
    path = journal (db_path σ.1) ∧ files σ''.2 !! path = None) ∧
   table_at σ'' name = table_at σ name).
Proof.
  destruct σ as [[p c'] [fs cs ts]].
  unfold store_ok, tasks_table, database_of, table_at.
  simpl. intros -> [Hc Hr] Hstmt Hpath. revert Hr.
  unfold final, on_snd, transaction. simpl.
  destruct (is_temporary p) eqn:Ht.
  - destruct (ts !! conn) as [db|] eqn:Hdb; [|by intros [? ?]]. intros _.
    rewrite (on_database_temporary _ _ _ _ _ _ _ Hc Ht Hdb).
    destruct (stmt db) as [[a|e]|a db']; simpl; auto.
  - destruct (fs !! p) as [[|db|db|]|] eqn:Hp; try by intros [? ?]. intros _.
    rewrite (on_database_file _ _ _ _ _ _ _ Hc Ht Hp).
    specialize (Hstmt db).
    destruct (stmt db) as [[a|e]|a db']; simpl; rewrite ?Hp; auto.
    rewrite lookup_insert_ne by done. rewrite lookup_insert_eq.
    rewrite (Hstmt a db' eq_refl).
    destruct (decide (path = journal p)) as [->|Hj].
    + rewrite lookup_delete_eq. auto.
    + rewrite lookup_delete_ne by done. auto.
Qed.

Lemma connect_frame σ path name :
  store_ok σ →
  path ≠ db_path σ.1 →
  name ≠ "tasks" →
  (files (final connect σ).2 !! path = files σ.2 !! path ∨
   path = journal (db_path σ.1) ∧ files (final connect σ).2 !! path = None) ∧
  table_at (final connect σ) name = table_at σ name.
Proof.
  destruct σ as [[p [conn|]] [fs cs ts]].
  { intros _ _ _. unfold final. rewrite connect_open by by eexists. auto. }
  unfold store_ok, writable_location, table_at. simpl.
  intros Hf Hpath Hname. revert Hf.
  unfold final, connect. py_unfold. simpl. unfold sqlite3.connect. simpl.
  unfold _create_table. py_unfold. simpl.
  unfold create_table_if_not_exists, on_database. simpl.
  destruct (is_temporary p) eqn:Ht; simpl.
  { intros _. rewrite list_lookup_middle by done.
    rewrite Ht, lookup_insert_eq, lookup_empty. simpl. auto. }
  destruct (fs !! p) as [[|db|db|]|] eqn:Hp; try done; intros _; simpl.
  - rewrite list_lookup_middle by done. rewrite Ht, Hp.
    destruct (db !! "tasks") as [rows|] eqn:Hr; simpl.
    + rewrite Hp. auto.
    + rewrite lookup_insert_ne by done. rewrite lookup_insert_eq.
      rewrite (lookup_insert_ne db) by done. split; [|done].
      destruct (decide (path = journal p)) as [->|Hj].
      * rewrite lookup_delete_eq. auto.
      * rewrite lookup_delete_ne by done. auto.
  - rewrite list_lookup_middle by done.
    rewrite Ht, lookup_insert_eq, lookup_empty. simpl.
    rewrite lookup_insert_ne by done. rewrite lookup_insert_eq.
    rewrite lookup_insert_ne by done. rewrite lookup_empty. split; [|done].
    destruct (decide (path = journal p)) as [->|Hj].
    + rewrite lookup_delete_eq. auto.
    + rewrite lookup_delete_ne, lookup_insert_ne by done. auto.
Qed.

Lemma run_call_frame σ c path name :
  store_ok σ →
  path ≠ db_path σ.1 →
  name ≠ "tasks" →
  db_path (run_call c σ).1 = db_path σ.1 ∧
  (files (run_call c σ).2 !! path = files σ.2 !! path ∨
   path = journal (db_path σ.1) ∧ files (run_call c σ).2 !! path = None) ∧
  table_at (run_call c σ) name = table_at σ name.
Proof.
  intros Hok Hpath Hname.
  destruct (connect_frame σ path name Hok Hpath Hname) as [Hf1 Ht1].
  destruct (connect_spec σ Hok) as (σ1 & E1 & Hok1 & [conn Hc] & Hp1 & _).
  unfold final in Hf1, Ht1. rewrite E1 in Hf1, Ht1. simpl in Hf1, Ht1.
  rewrite <- Hp1 in Hpath.
  destruct c as [|task|task_id|task_id|]; simpl.
  - unfold final. by rewrite E1.
  - destruct (save_spec σ task Hok) as (σ2 & E2 & _ & _ & Hp2 & _).
    unfold final. rewrite E2. simpl. split; [done|].
    unfold save in E2. py_unfold. rewrite E1 in E2. simpl in E2.
    rewrite Hc in E2. unfold insert_or_replace in E2.
    match type of E2 with context [on_database conn ?stmt] =>
      destruct (statement_frame conn σ1 path name stmt) as [_ [Hf2 Ht2]];
        [done|done| |done|]
    end.
    { intros db a db'. destruct (db !! "tasks"); [|done].
      intros [= _ <-]. by rewrite lookup_insert_ne. }
    unfold final, on_snd, transaction in Hf2, Ht2. rewrite E2 in Hf2, Ht2.
    simpl in Hf2, Ht2. rewrite Hp1 in Hf2. rewrite Ht2, Ht1.
    split; [|done]. by apply (frame_trans _ (files σ1.2)).
  - destruct (get_spec σ task_id Hok) as (σ2 & E2 & _ & _ & Hp2 & _).
    unfold final. rewrite E2. simpl. split; [done|].
    unfold get in E2. py_unfold. rewrite E1 in E2. simpl in E2.
    rewrite Hc in E2. unfold select_task_data in E2.
    match type of E2 with context [on_database conn ?stmt] =>
      destruct (statement_frame conn σ1 path name stmt) as [[Hf2 Ht2] _];
        [done|done| |done|]
    end.
    { intros db a db'. by destruct (db !! "tasks"). }
    unfold final, on_snd in Hf2, Ht2. rewrite Hp1 in Hf2.
    destruct (on_database conn _ σ1.2) as [[rows|e] w2]; simpl in *.
    + destruct (fetchone rows) as [task_data|].
      * destruct (Task_parse_raw task_data);
          injection E2 as _ <-; simpl; rewrite Ht2, Ht1;
          (split; [|done]); by apply (frame_trans _ (files σ1.2)).
      * injection E2 as _ <-. simpl. rewrite Ht2, Ht1.
        split; [|done]. by apply (frame_trans _ (files σ1.2)).
    + injection E2 as _ <-. simpl. rewrite Ht2, Ht1.
      split; [|done]. by apply (frame_trans _ (files σ1.2)).
  - destruct (delete_spec σ task_id Hok) as (σ2 & E2 & _ & _ & Hp2 & _).
    unfold final. rewrite E2. simpl. split; [done|].
    unfold delete in E2. py_unfold. rewrite E1 in E2. simpl in E2.
    rewrite Hc in E2. unfold delete_where_id in E2.
    match type of E2 with context [on_database conn ?stmt] =>
      destruct (statement_frame conn σ1 path name stmt) as [_ [Hf2 Ht2]];
        [done|done| |done|]
    end.
    { intros db a db'. destruct (db !! "tasks"); [|done].
      intros [= _ <-]. by rewrite lookup_insert_ne. }
    unfold final, on_snd, transaction in Hf2, Ht2. rewrite E2 in Hf2, Ht2.
    simpl in Hf2, Ht2. rewrite Hp1 in Hf2. rewrite Ht2, Ht1.
    split; [|done]. by apply (frame_trans _ (files σ1.2)).
  - rewrite close_path. unfold table_at. rewrite close_files, close_path. auto.
Qed.

(** X7. A store keeps to its own table: whatever calls are made on a
    usable store, its path stays the same, the tables other than [tasks]
    of its database file are as they were, and so is every other file,
    but for the file at the path of the rollback journal, which is as it
    was or is gone. *)
Theorem calls_touch_only_tasks σ (calls : list (@call Task)) path name :
  store_ok σ →
  path ≠ db_path σ.1 →
  name ≠ "tasks" →
  db_path (run_calls calls σ).1 = db_path σ.1 ∧
  (files (run_calls calls σ).2 !! path = files σ.2 !! path ∨
   path = journal (db_path σ.1) ∧ files (run_calls calls σ).2 !! path = None) ∧
  table_at (run_calls calls σ) name = table_at σ name.
Proof.
  revert σ. induction calls as [|c calls IH]; intros σ Hok Hpath Hname; [auto|].
  destruct (run_call_frame σ c path name Hok Hpath Hname) as (Hp & Hf & Ht).
  simpl. destruct (IH (run_call c σ)) as (Hp' & Hf' & Ht');
    [by apply run_call_ok|by rewrite Hp|done|].
  rewrite Hp', Ht', Hp, Ht. rewrite Hp in Hf'.
  split; [done|]. split; [|done]. by apply (frame_trans _ (files (run_call c σ).2)).
Qed.

(** X8. The first call creates the database: on a store without a
    connection whose path holds no file yet, [connect], [get] and
    [delete] leave a database with an empty table [tasks], [save] one
    with the saved row, and [close] still no file. *)
Theorem first_call_creates_database σ c :
  _conn σ.1 = None →
  files σ.2 !! db_path σ.1 = None →
  tasks_table (run_call c σ)
  = match c with
    | Save task => Some [(Task_id task, Task_json task)]
    | Close => None
    | _ => Some []
    end.
Proof.
  intros Hconn Hfile.
  assert (store_ok σ) as Hok.
  { unfold store_ok, writable_location. rewrite Hconn, Hfile.
    apply orb_true_r. }
  assert (rows_of σ = []) as Hrows.
  { unfold rows_of, tasks_table, database_of. rewrite Hconn, Hfile.
    by destruct (is_temporary (db_path σ.1)). }
  assert (∀ σ', store_ok σ' → is_Some (_conn σ'.1) →
            tasks_table σ' = Some (rows_of σ')) as Htable.
  { intros σ' Hok' [conn Hc]. unfold store_ok in Hok'. rewrite Hc in Hok'.
    destruct Hok' as [_ [rows Hr]]. unfold rows_of. by rewrite Hr. }
  destruct c as [|task|task_id|task_id|]; simpl.
  - destruct (connect_spec σ Hok) as (σ1 & E & Hok1 & Hc & _ & Hr).
    unfold final. rewrite E. simpl. by rewrite Htable, Hr, Hrows.
  - destruct (save_spec σ task Hok) as (σ1 & E & Hok1 & Hc & _ & Hr).
    unfold final. rewrite E. simpl. by rewrite Htable, Hr, Hrows.
  - destruct (get_spec σ task_id Hok) as (σ1 & E & Hok1 & Hc & _ & Hr).
    unfold final. rewrite E. simpl. by rewrite Htable, Hr, Hrows.
  - destruct (delete_spec σ task_id Hok) as (σ1 & E & Hok1 & Hc & _ & Hr).
    unfold final. rewrite E. simpl. by rewrite Htable, Hr, Hrows.
  - destruct σ as [[p conn] w]. simpl in *. subst conn.
    unfold tasks_table, database_of. simpl. rewrite Hfile.
    by destruct (is_temporary p).
Qed.

(** X9. The order of calls does not matter for success: after any
    sequence of calls on a usable store, a call raises only when it is a
    [get] of an id whose payload [Task.parse_raw] rejects, and then it
    raises that validation error. *)
Theorem calls_fail_only_on_malformed_payload σ (calls : list (@call Task)) c :
  store_ok σ →
  let σ' := run_calls calls σ in
  match failure c σ' with
  | None => True
  | Some e =>
      e = ValidationError ∧
      ∃ task_id task_data,
        c = Get task_id ∧
        contents σ' !! task_id = Some task_data ∧
        Task_parse_raw task_data = None
  end.
Proof.
  intros Hok σ'. assert (store_ok σ') as Hok' by by apply run_calls_ok.
  destruct c as [|task|task_id|task_id|]; unfold failure.
  - destruct (connect_spec σ' Hok') as (σ1 & E & _).
    unfold outcome. by rewrite E.
  - by rewrite save_returns.
  - rewrite get_answer by done.
    pose proof (contents_lookup σ' task_id) as Hlook.
    destruct (stored σ' task_id) as [|task_data rest]; [done|]. simpl in *.
    destruct (Task_parse_raw task_data) eqn:Hparse; [done|]. eauto 10.
  - by rewrite delete_returns.
  - by rewrite close_returns.
Qed.

(** *** Files that open but cannot be used *)

(** The store after [sqlite3.connect] has opened one more handle on its
    path and the store has taken it. *)
Lemma connect_opened path fs cs ts :
  is_temporary path = false →
  match fs !! path with
  | Some (ReadOnly _) | Some NotADatabase => True
  | _ => False
  end →
  let σ := ({| db_path := path; _conn := None |}, World fs cs ts) in
  let opened := ({| db_path := path; _conn := Some (length cs) |},
                 World fs (cs ++ [Some path]) ts) in
  connect σ = _create_table opened ∧
  _create_table opened
  = (match fs !! path with
     | Some (ReadOnly db) =>
         match db !! "tasks" with
         | Some _ => Return tt
         | None => Raise readonly_database
         end
     | _ => Raise not_a_database
     end, opened).
Proof.
  intros Ht Hf. simpl.
  assert (_create_table
            ({| db_path := path; _conn := Some (length cs) |},
             World fs (cs ++ [Some path]) ts)
          = (match fs !! path with
             | Some (ReadOnly db) =>
                 match db !! "tasks" with
                 | Some _ => Return tt
                 | None => Raise readonly_database
                 end
             | _ => Raise not_a_database
             end,
             ({| db_path := path; _conn := Some (length cs) |},
              World fs (cs ++ [Some path]) ts))) as Hcreate.
  { unfold _create_table. py_unfold. simpl.
    unfold create_table_if_not_exists, on_database. simpl.
    rewrite list_lookup_middle by done. rewrite Ht.
    destruct (fs !! path) as [[|db|db|]|]; try done.
    by destruct (db !! "tasks"). }
  split; [|done]. rewrite Hcreate.
  unfold connect. py_unfold. simpl. unfold sqlite3.connect. simpl. rewrite Ht.
  destruct (fs !! path) as [[|db|db|]|] eqn:Hp; try done; simpl;
    rewrite Hcreate; by rewrite Hp.
Qed.

(** X27. A database file that may only be read and has the table: the
    first call opens a connection, which the store keeps; [connect]
    returns and [get] answers from the rows of the file, while [save] and
    [delete] raise the error of SQLite for a write to a read-only
    database; no call changes a file. *)
Theorem read_only_database_refuses_writes σ db rows task task_id :
  _conn σ.1 = None →
  is_temporary (db_path σ.1) = false →
  files σ.2 !! db_path σ.1 = Some (ReadOnly db) →
  db !! "tasks" = Some rows →
  let opened : state :=
    ({| db_path := db_path σ.1; _conn := Some (length (conns σ.2)) |},
     World (files σ.2) (conns σ.2 ++ [Some (db_path σ.1)]) (temps σ.2)) in
  connect σ = (Return tt, opened) ∧
  get task_id σ
  = (answer ((filter (λ r : row, r.1 = task_id) rows).*2), opened) ∧
  save task σ = (Raise readonly_database, opened) ∧
  delete task_id σ = (Raise readonly_database, opened).
Proof.
  destruct σ as [[path conn] [fs cs ts]]. simpl. intros -> Ht Hf Hr.
  destruct (connect_opened path fs cs ts Ht) as [Hconnect Hcreate];
    [by rewrite Hf|].
  simpl in Hconnect, Hcreate. rewrite Hcreate in Hconnect.
  rewrite Hf, Hr in Hconnect.
  split; [done|].
  unfold get, save, delete. py_unfold. rewrite Hconnect. simpl.
  unfold select_task_data, insert_or_replace, delete_where_id, on_database.
  simpl. rewrite list_lookup_middle by done. rewrite Ht, Hf, Hr. simpl.
  split; [|done]. unfold fetchone, answer.
  destruct ((filter (λ r : row, r.1 = task_id) rows).*2) as [|task_data rest];
    [done|]. simpl. by destruct (Task_parse_raw task_data).
Qed.

(** X28. A file that is no database, or a read-only database without the
    table: [sqlite3.connect] opens it, and it is the statement of
    [_create_table] that raises, after the store has taken the
    connection.  So [connect], [save], [get] and [delete] raise, the
    store holds the connection from then on, and a later [connect]
    returns without doing anything. *)
Theorem connect_fails_after_taking_the_connection σ task task_id :
  _conn σ.1 = None →
  is_temporary (db_path σ.1) = false →
  ∀ e,
  match files σ.2 !! db_path σ.1 with
  | Some NotADatabase => e = not_a_database
  | Some (ReadOnly db) => db !! "tasks" = None ∧ e = readonly_database
  | _ => False
  end →
  let opened : state :=
    ({| db_path := db_path σ.1; _conn := Some (length (conns σ.2)) |},
     World (files σ.2) (conns σ.2 ++ [Some (db_path σ.1)]) (temps σ.2)) in
  connect σ = (Raise e, opened) ∧
  save task σ = (Raise e, opened) ∧
  get task_id σ = (Raise e, opened) ∧
  delete task_id σ = (Raise e, opened) ∧
  connect opened = (Return tt, opened).
Proof.
  destruct σ as [[path conn] [fs cs ts]]. simpl. intros -> Ht e He.
  destruct (connect_opened path fs cs ts Ht) as [Hconnect Hcreate].
  { by destruct (fs !! path) as [[|db|db|]|]. }
  simpl in Hconnect, Hcreate. rewrite Hcreate in Hconnect.
  assert (connect ({| db_path := path; _conn := None |}, World fs cs ts)
          = (Raise e,
             ({| db_path := path; _conn := Some (length cs) |},
              World fs (cs ++ [Some path]) ts))) as Hraise.
  { rewrite Hconnect. destruct (fs !! path) as [[|db|db|]|]; try done.
    - destruct He as [-> ->]. done.
    - by rewrite He. }
  split; [done|]. unfold save, get, delete. py_unfold. by rewrite Hraise.
Qed.

End Task.

(** *** The theorems at work on concrete stores *)

#[local] Existing Instance examples.SimpleTask_class.

Lemma calls_refine_map_witness :
  store_ok examples.fresh ∧
  store_ok (run_calls examples_more.some_calls examples.fresh) ∧
  contents (run_calls examples_more.some_calls examples.fresh)
  = foldl (λ m c, map_effect (is_temporary (db_path examples.fresh.1)) c m)
      (contents examples.fresh) examples_more.some_calls.
Proof.
  split; [exact fresh_ok|].
  apply (calls_refine_map examples.fresh examples_more.some_calls). exact fresh_ok.
Defined.

Lemma get_is_map_lookup_witness :
  store_ok examples.saved ∧
  outcome (get (Task:=examples.SimpleTask) "task-1") examples.saved
  = match contents examples.saved !! "task-1" with
    | None => Return None
    | Some task_data =>
        match Task_parse_raw task_data with
        | Some task => Return (Some task)
        | None => Raise ValidationError
        end
    end.
Proof.
  split; [exact saved_ok|].
  apply (get_is_map_lookup examples.saved "task-1"). exact saved_ok.
Defined.

Lemma last_call_absorbs_witness :
  store_ok examples.saved ∧
  Task_id examples.pending = Task_id examples.done ∧
  rows_of (final (save examples.done) (final (save examples.pending) examples.saved))
  = rows_of (final (save examples.done) examples.saved).
Proof.
  split; [exact saved_ok|]. split; [reflexivity|].
  pose proof (last_call_absorbs examples.saved examples.pending examples.done
                saved_ok (eq_refl "task-1")) as [Hw _].
  exact Hw.
Defined.

Lemma saved_unique : unique_ids examples.saved.
Proof. vm_compute. apply NoDup_singleton. Defined.

Lemma row_count_witness :
  store_ok examples.saved ∧
  unique_ids examples.saved ∧
  length (rows_of examples.saved) = size (contents examples.saved) ∧
  length (rows_of (final (save examples.other) examples.saved))
    = match contents examples.saved !! Task_id examples.other with
      | Some _ => length (rows_of examples.saved)
      | None => S (length (rows_of examples.saved))
      end ∧
  length (rows_of (final (delete "task-1") examples.saved))
    = match contents examples.saved !! "task-1" with
      | Some _ => pred (length (rows_of examples.saved))
      | None => length (rows_of examples.saved)
      end.
Proof.
  split; [exact saved_ok|]. split; [exact saved_unique|].
  apply (row_count examples.saved examples.other "task-1");
    [exact saved_ok|exact saved_unique].
Defined.

Lemma no_connection_leak_witness :
  tidy examples.saved ∧
  tidy (run_calls examples_more.some_calls examples.saved) ∧
  open_handles (run_calls (examples_more.some_calls ++ [Close]) examples.saved).2 = [].
Proof.
  split; [reflexivity|].
  apply (no_connection_leak examples.saved examples_more.some_calls). reflexivity.
Defined.

Lemma connection_is_reused_witness :
  is_Some (_conn examples.saved.1) ∧
  forallb keeps_connection examples_more.calls_without_close = true ∧
  (run_calls examples_more.calls_without_close examples.saved).1 = examples.saved.1 ∧
  conns (run_calls examples_more.calls_without_close examples.saved).2
  = conns examples.saved.2.
Proof.
  assert (is_Some (_conn examples.saved.1)) as Hconn by (eexists; reflexivity).
  split; [exact Hconn|]. split; [reflexivity|].
  apply (connection_is_reused examples.saved examples_more.calls_without_close);
    [exact Hconn|reflexivity].
Defined.

Lemma calls_touch_only_tasks_witness :
  store_ok examples.corrupted ∧
  db_path (run_calls examples_more.some_calls examples.corrupted).1
    = db_path examples.corrupted.1 ∧
  (files (run_calls examples_more.some_calls examples.corrupted).2 !! "other.db"
     = files examples.corrupted.2 !! "other.db" ∨
   "other.db" = journal (db_path examples.corrupted.1) ∧
   files (run_calls examples_more.some_calls examples.corrupted).2 !! "other.db"
     = None) ∧
  table_at (run_calls examples_more.some_calls examples.corrupted) "users"
    = table_at examples.corrupted "users".
Proof.
  split; [exact corrupted_ok|].
  apply (calls_touch_only_tasks examples.corrupted examples_more.some_calls "other.db" "users");
    [exact corrupted_ok|discriminate|discriminate].
Defined.

Lemma first_call_creates_database_witness :
  _conn examples.fresh.1 = None ∧
  files examples.fresh.2 !! db_path examples.fresh.1 = None ∧
  tasks_table (run_call (Get (Task:=examples.SimpleTask) "task-1") examples.fresh)
  = Some [].
Proof.
  split; [reflexivity|]. split; [reflexivity|].
  apply (first_call_creates_database examples.fresh (Get "task-1"));
    reflexivity.
Defined.

Lemma calls_fail_only_on_malformed_payload_witness :
  store_ok examples.corrupted ∧
  match failure (Get (Task:=examples.SimpleTask) "task-9")
          (run_calls [] examples.corrupted) with
  | None => True
  | Some e =>
      e = ValidationError ∧
      ∃ task_id task_data,
        Get (Task:=examples.SimpleTask) "task-9" = Get task_id ∧
        contents (run_calls [] examples.corrupted) !! task_id = Some task_data ∧
        Task_parse_raw (Task:=examples.SimpleTask) task_data = None
  end.
Proof.
  split; [exact corrupted_ok|].
  apply (calls_fail_only_on_malformed_payload examples.corrupted [] (Get "task-9")).
  exact corrupted_ok.
Defined.

Lemma read_only_database_refuses_writes_witness :
  _conn examples.read_only.1 = None ∧
  is_temporary (db_path examples.read_only.1) = false ∧
  save examples.done examples.read_only
  = (Raise readonly_database,
     ({| db_path := db_path examples.read_only.1;
         _conn := Some (length (conns examples.read_only.2)) |},
      World (files examples.read_only.2)
        (conns examples.read_only.2 ++ [Some (db_path examples.read_only.1)])
        (temps examples.read_only.2))).
Proof.
  split; [reflexivity|]. split; [reflexivity|].
  pose proof (read_only_database_refuses_writes examples.read_only
                {[ "tasks" := [("task-1", "task-1:pending")] ]}
                [("task-1", "task-1:pending")] examples.done "task-1"
                eq_refl eq_refl eq_refl eq_refl) as (_ & _ & Hw & _).
  exact Hw.
Defined.

Lemma connect_fails_after_taking_the_connection_witness :
  _conn examples.garbled.1 = None ∧
  is_temporary (db_path examples.garbled.1) = false ∧
  get (Task:=examples.SimpleTask) "task-1" examples.garbled
  = (Raise not_a_database,
     ({| db_path := db_path examples.garbled.1;
         _conn := Some (length (conns examples.garbled.2)) |},
      World (files examples.garbled.2)
        (conns examples.garbled.2 ++ [Some (db_path examples.garbled.1)])
        (temps examples.garbled.2))).
Proof.
  split; [reflexivity|]. split; [reflexivity|].
  pose proof (connect_fails_after_taking_the_connection examples.garbled
                examples.pending "task-1" eq_refl eq_refl not_a_database eq_refl)
    as (_ & _ & Hw & _).
  exact Hw.
Defined.

End db_task_store_more.

(** * Further properties of the forecast tools *)

Module weather_tools_more.

Import weather_tools weather_tools_city weather_tools_props.

Section tools.

Variable server : list string → string → http_result.
Variable format_4f : spec_float → string.
Variable repr : json → string.
Variable strip : string → string.

Abbreviation format_forecast_period := (format_forecast_period repr strip).
Abbreviation get_forecast := (get_forecast server format_4f repr strip).
Abbreviation point_endpoint := (point_endpoint format_4f).

(** Formatting reads the period and nothing else: the state is kept. *)
Lemma format_silent {S} period (s : S) :
  ∃ r, format_forecast_period period s = (r, s).
Proof.
  unfold weather_tools.format_forecast_period, dict_get, str_strip. run_py.
  destruct period; eauto.
  destruct (default _ (assoc "detailedForecast" d)); eauto.
Qed.

Lemma mapM_format_silent {S} periods (s : S) :
  ∃ r, mapM format_forecast_period periods s = (r, s).
Proof.
  induction periods as [|period periods [r IH]]; simpl; [by eexists|].
  run_py. destruct (format_silent period s) as [[text|e] ->]; [|by eexists].
  rewrite IH. destruct r; by eexists.
Qed.

(** [fetch] makes the request, whatever comes of it. *)
Lemma fetch_requests url requests :
  ∃ r, fetch server url requests = (r, requests ++ [url]).
Proof.
  unfold fetch, http_client_get, raise_for_status, response_json. run_py.
  destruct (server requests url) as [error|[[error|] [data|]]]; simpl; eauto.
Qed.

(** X10. [format_forecast_period] returns a text exactly for a dict whose
    [detailedForecast], when present, is a string; on anything else it
    raises [AttributeError]. *)
Theorem format_forecast_period_raises_or_returns {S} period (s : S) :
  if well_formed_period period
  then ∃ text, format_forecast_period period s = (Return text, s)
  else format_forecast_period period s = (Raise AttributeError, s).
Proof.
  destruct (well_formed_period period) eqn:Hwf.
  - destruct (format_well_formed repr strip period Hwf) as [text Ht]. eauto.
  - unfold weather_tools.format_forecast_period, dict_get, str_strip. run_py.
    destruct period as [| | | | | |d]; try done. simpl in Hwf.
    destruct (assoc "detailedForecast" d) as [[]|]; try done.
Qed.

Lemma assoc_app key (d d' : list (string * json)) :
  assoc key (d ++ d')
  = match assoc key d with
    | Some v => Some v
    | None => assoc key d'
    end.
Proof.
  induction d as [|[k v] d IH]; [done|]. simpl.
  by destruct (String.eqb k key).
Qed.

Lemma get_with_defaults key dflt d :
  assoc key period_defaults = Some dflt →
  default dflt (assoc key (d ++ period_defaults)) = default dflt (assoc key d).
Proof. intros Hd. rewrite assoc_app, Hd. by destruct (assoc key d). Qed.

(** X11. A missing field reads as its default: a period formats to the
    same text, or raises the same, as the period completed with the
    default of every key of [format_forecast_period]; a field that is
    present keeps its own value. *)
Theorem missing_fields_take_defaults {S} d (s : S) :
  format_forecast_period (JDict d) s
  = format_forecast_period (JDict (d ++ period_defaults)) s.
Proof.
  unfold weather_tools.format_forecast_period, dict_get. run_py.
  by rewrite !get_with_defaults.
Qed.

(** X12. [get_forecast] makes at most two requests, none when the
    coordinates are out of range, and the first one, if any, goes to the
    point endpoint of the coordinates. *)
Theorem get_forecast_at_most_two_requests latitude longitude requests :
  ∃ made,
    final (get_forecast latitude longitude) requests = requests ++ made ∧
    length made ≤ 2 ∧
    (in_range latitude longitude = false → made = []) ∧
    (∀ url, head made = Some url → url = point_endpoint latitude longitude).
Proof.
  unfold final, weather_tools.get_forecast.
  destruct (in_range latitude longitude); simpl.
  2:{ exists []. rewrite app_nil_r. split; [done|]. split; [simpl; lia|].
      split; [done|]. by intros url [=]. }
  unfold try_except at 1.
  destruct (fetch_requests (point_endpoint latitude longitude) requests)
    as [r1 ->].
  set (st1 := requests ++ [point_endpoint latitude longitude]).
  assert (∃ made, st1 = requests ++ made ∧ length made ≤ 2 ∧
            (true = false → made = []) ∧
            (∀ url, head made = Some url →
                    url = point_endpoint latitude longitude)) as Hone.
  { exists [point_endpoint latitude longitude].
    split; [done|]. split; [simpl; lia|]. split; [done|].
    by intros url [= <-]. }
  destruct r1 as [points_data|e].
  2:{ unfold except_httpx. destruct e; run_py; exact Hone. }
  unfold dict_get, as_url. run_py.
  destruct points_data; try exact Hone. simpl.
  destruct (default (JDict []) (assoc "properties" d)); try exact Hone.
  simpl. destruct (truthy _); simpl; [|exact Hone].
  unfold try_except. run_py.
  destruct (default JNull (assoc "forecast" d0)); try exact Hone.
  destruct (fetch_requests s st1) as [r2 ->].
  set (st2 := st1 ++ [s]).
  assert (∃ made, st2 = requests ++ made ∧ length made ≤ 2 ∧
            (true = false → made = []) ∧
            (∀ url, head made = Some url →
                    url = point_endpoint latitude longitude)) as Htwo.
  { exists [point_endpoint latitude longitude; s].
    split; [by unfold st2, st1; rewrite <- app_assoc|].
    split; [simpl; lia|]. split; [done|]. by intros url [= <-]. }
  destruct r2 as [forecast_data|e].
  2:{ unfold except_httpx. destruct e; run_py; exact Htwo. }
  unfold first_five.
  destruct forecast_data; try exact Htwo. simpl.
  destruct (default (JDict []) (assoc "properties" d1)); try exact Htwo.
  simpl. destruct (truthy _); simpl; [|exact Htwo].
  destruct (default (JList []) (assoc "periods" d2)); try exact Htwo.
  unfold mret, M_ret, ret. cbv beta iota.
  destruct (mapM_format_silent (take 5 l) st2) as [[forecasts|e] E];
    run_py; by rewrite E.
Qed.

Lemma fetch_fails url requests error :
  fails_with (server requests url) error →
  ∃ e, fetch server url requests = (Raise e, requests ++ [url]) ∧
       ∀ message,
         except_httpx message e = Some (mret (message +:+ error)).
Proof.
  unfold fetch, http_client_get, raise_for_status. run_py.
  intros [->|[data ->]]; simpl; eauto.
Qed.

Lemma fetch_answers url requests data :
  server requests url = Answer (Response None (Some data)) →
  fetch server url requests = (Return data, requests ++ [url]).
Proof.
  unfold fetch, http_client_get, raise_for_status, response_json. run_py.
  by intros ->.
Qed.

(** X13. When the request for the grid point fails, by the network or by
    the status of the response, [get_forecast] returns the text of that
    failure after this one request; it does not raise. *)
Theorem point_request_failure_is_reported latitude longitude requests error :
  in_range latitude longitude = true →
  fails_with (server requests (point_endpoint latitude longitude)) error →
  get_forecast latitude longitude requests
  = (Return ("Unable to retrieve NWS gridpoint information: " +:+ error),
     requests ++ [point_endpoint latitude longitude]).
Proof.
  intros Hin Hfail. unfold weather_tools.get_forecast. rewrite Hin. simpl.
  destruct (fetch_fails _ _ _ Hfail) as (e & E & Hcatch).
  unfold try_except. by rewrite E, Hcatch.
Qed.

(** X14. When the document of the grid point is an object that gives no
    forecast URL, because [properties] or [forecast] is missing or the
    URL is empty or null, the answer is the fixed text and the second
    request is not made. *)
Theorem missing_forecast_url_is_reported latitude longitude requests
    points_data properties :
  in_range latitude longitude = true →
  server requests (point_endpoint latitude longitude)
    = Answer (Response None (Some (JDict points_data))) →
  default (JDict []) (assoc "properties" points_data) = JDict properties →
  truthy (default JNull (assoc "forecast" properties)) = false →
  get_forecast latitude longitude requests
  = (Return "Could not find the NWS forecast endpoint.",
     requests ++ [point_endpoint latitude longitude]).
Proof.
  intros Hin Hpoints Hprops Hurl.
  unfold weather_tools.get_forecast. rewrite Hin. simpl.
  unfold try_except at 1. rewrite (fetch_answers _ _ _ Hpoints).
  unfold dict_get. run_py. rewrite Hprops. simpl. by rewrite Hurl.
Qed.

(** X15. When the request for the forecast fails, [get_forecast] returns
    the text of that failure after the two requests; it does not raise. *)
Theorem forecast_request_failure_is_reported latitude longitude requests
    points_data properties url error :
  in_range latitude longitude = true →
  server requests (point_endpoint latitude longitude)
    = Answer (Response None (Some (JDict points_data))) →
  default (JDict []) (assoc "properties" points_data) = JDict properties →
  assoc "forecast" properties = Some (JStr url) →
  url ≠ "" →
  fails_with (server (requests ++ [point_endpoint latitude longitude]) url)
    error →
  get_forecast latitude longitude requests
  = (Return ("Failed to retrieve detailed forecast data: " +:+ error),
     requests ++ [point_endpoint latitude longitude; url]).
Proof.
  intros Hin Hpoints Hprops Hurl Hne Hfail.
  unfold weather_tools.get_forecast. rewrite Hin. simpl.
  unfold try_except at 1. rewrite (fetch_answers _ _ _ Hpoints).
  unfold dict_get. run_py. rewrite Hprops. simpl. rewrite Hurl. simpl.
  assert (String.eqb url "" = false) as -> by by apply String.eqb_neq.
  simpl. destruct (fetch_fails _ _ _ Hfail) as (e & E & Hcatch).
  unfold try_except, as_url. run_py. rewrite E, Hcatch.
  by rewrite <- app_assoc.
Qed.

(** X16. When the forecast document is an object without periods,
    because [properties] or [periods] is missing or the list is empty,
    the answer is the fixed text. *)
Theorem no_periods_is_reported latitude longitude requests
    points_data points_properties url forecast_data properties :
  in_range latitude longitude = true →
  server requests (point_endpoint latitude longitude)
    = Answer (Response None (Some (JDict points_data))) →
  default (JDict []) (assoc "properties" points_data) = JDict points_properties →
  assoc "forecast" points_properties = Some (JStr url) →
  url ≠ "" →
  server (requests ++ [point_endpoint latitude longitude]) url
    = Answer (Response None (Some (JDict forecast_data))) →
  default (JDict []) (assoc "properties" forecast_data) = JDict properties →
  truthy (default (JList []) (assoc "periods" properties)) = false →
  get_forecast latitude longitude requests
  = (Return "No forecast periods found for this location.",
     requests ++ [point_endpoint latitude longitude; url]).
Proof.
  intros Hin Hpoints Hpp Hurl Hne Hforecast Hprops Hperiods.
  unfold weather_tools.get_forecast. rewrite Hin. simpl.
  unfold try_except at 1. rewrite (fetch_answers _ _ _ Hpoints).
  unfold dict_get. run_py. rewrite Hpp. simpl. rewrite Hurl. simpl.
  assert (String.eqb url "" = false) as -> by by apply String.eqb_neq.
  simpl. unfold try_except, as_url. run_py.
  rewrite (fetch_answers _ _ _ Hforecast). rewrite Hprops. simpl.
  rewrite Hperiods. simpl. by rewrite <- app_assoc.
Qed.

(** X17. Only the first five periods count: with five periods or more,
    the answer is made of the first five alone; what follows them is not
    formatted and cannot make the call raise. *)
Theorem periods_after_the_fifth_are_ignored latitude longitude requests
    points_data points_properties url forecast_data properties first rest :
  in_range latitude longitude = true →
  server requests (point_endpoint latitude longitude)
    = Answer (Response None (Some (JDict points_data))) →
  assoc "properties" points_data = Some (JDict points_properties) →
  assoc "forecast" points_properties = Some (JStr url) →
  url ≠ "" →
  server (requests ++ [point_endpoint latitude longitude]) url
    = Answer (Response None (Some (JDict forecast_data))) →
  assoc "properties" forecast_data = Some (JDict properties) →
  assoc "periods" properties = Some (JList (first ++ rest)) →
  length first = 5 →
  get_forecast latitude longitude requests
  = (forecasts ← mapM format_forecast_period first;
     mret (str_join (nl +:+ "---" +:+ nl) forecasts))
      (requests ++ [point_endpoint latitude longitude; url]).
Proof.
  intros Hin Hpoints Hpp Hurl Hne Hforecast Hprops Hperiods Hfive.
  erewrite get_forecast_success; try done.
  - by rewrite take_app_length' by done.
  - intros Hnil. by destruct first.
Qed.

(** X18. What the [except] clauses do not catch: a grid point response
    whose body is not JSON makes [get_forecast] raise [JSONDecodeError],
    and one whose JSON is not an object makes it raise [AttributeError],
    in both cases after the one request. *)
Theorem malformed_point_response_raises latitude longitude requests data :
  in_range latitude longitude = true →
  server requests (point_endpoint latitude longitude)
    = Answer (Response None data) →
  match data with
  | None =>
      get_forecast latitude longitude requests
      = (Raise JSONDecodeError, requests ++ [point_endpoint latitude longitude])
  | Some (JDict _) => True
  | Some _ =>
      get_forecast latitude longitude requests
      = (Raise AttributeError, requests ++ [point_endpoint latitude longitude])
  end.
Proof.
  intros Hin Hpoints. unfold weather_tools.get_forecast. rewrite Hin. simpl.
  unfold try_except at 1.
  unfold fetch, http_client_get, raise_for_status, response_json. run_py.
  rewrite Hpoints. simpl. by destruct data as [[]|].
Qed.

(** X19. A coordinate that is not a finite number, as latitude or as
    longitude, is out of range: the answer is the fixed text and no
    request is made. *)
Theorem non_finite_coordinate_is_invalid x other requests :
  not_finite x = true →
  get_forecast x other requests
    = (Return "Invalid latitude or longitude provided.", requests) ∧
  get_forecast other x requests
    = (Return "Invalid latitude or longitude provided.", requests).
Proof.
  intros Hx. unfold weather_tools.get_forecast.
  assert (in_range x other = false) as ->.
  { unfold in_range. destruct x as [|[]| |]; try done. }
  assert (in_range other x = false) as ->; [|done].
  unfold in_range.
  destruct (SFleb (float (-90)) other), (SFleb other (float 90)); try done;
    destruct x as [|[]| |]; try done.
Qed.

End tools.

Section city.

Variable geocode : string → result (option Location).
Variable exn_text : exn → string.
Variable get_forecast_tool : spec_float → spec_float → M (list string) string.

Abbreviation get_forecast_by_city :=
  (get_forecast_by_city geocode exn_text get_forecast_tool).

(** X20. [get_forecast_by_city] answers a failed geocoding in text: when
    the geocoder finds nothing or raises, it returns the message for
    that case and the requests are as they were; so when it raises, the
    geocoder had found a location and the exception is that of the call
    of the forecast tool at its coordinates. *)
Theorem geocoding_failure_is_reported city state requests :
  let query := city +:+ ", " +:+ state +:+ ", USA" in
  (geocode query = Return None →
   get_forecast_by_city city state requests
   = (Return ("Could not find coordinates for '" +:+ city +:+ ", " +:+
              state +:+ "'."), requests)) ∧
  (∀ e, geocode query = Raise e →
   get_forecast_by_city city state requests
   = (Return ("An error occurred during geocoding: " +:+ exn_text e),
      requests)) ∧
  (∀ e, outcome (get_forecast_by_city city state) requests = Raise e →
   ∃ location,
     geocode query = Return (Some location) ∧
     outcome (get_forecast_tool (latitude location) (longitude location))
       requests = Raise e).
Proof.
  intros query.
  unfold outcome, weather_tools_city.get_forecast_by_city, try_except,
    geolocator_geocode, except_Exception. fold query. run_py.
  split; [by intros ->|]. split; [by intros e ->|].
  intros e. destruct (geocode query) as [[location|]|e']; try done.
  intros He. by exists location.
Qed.

End city.

(** *** The theorems at work on the example services *)

Lemma point_request_failure_is_reported_witness :
  in_range (float 41) (float (-75)) = true ∧
  fails_with
    (examples.server [] (point_endpoint examples.format_4f (float 41) (float (-75))))
    "connection refused" ∧
  get_forecast examples.server examples.format_4f examples.repr examples.strip
    (float 41) (float (-75)) []
  = (Return ("Unable to retrieve NWS gridpoint information: " +:+
             "connection refused"),
     [] ++ [point_endpoint examples.format_4f (float 41) (float (-75))]).
Proof.
  assert (in_range (float 41) (float (-75)) = true) as Hin by reflexivity.
  assert (fails_with
            (examples.server []
               (point_endpoint examples.format_4f (float 41) (float (-75))))
            "connection refused") as Hfail by (left; reflexivity).
  split; [exact Hin|]. split; [exact Hfail|].
  exact (point_request_failure_is_reported examples.server examples.format_4f
           examples.repr examples.strip _ _ [] _ Hin Hfail).
Defined.

Lemma missing_forecast_url_is_reported_witness :
  in_range (float 40) (float (-75)) = true ∧
  get_forecast (examples_more.table_server examples_more.without_url)
    examples.format_4f examples.repr examples.strip (float 40) (float (-75)) []
  = (Return "Could not find the NWS forecast endpoint.",
     [] ++ [point_endpoint examples.format_4f (float 40) (float (-75))]).
Proof.
  split; [reflexivity|].
  exact (missing_forecast_url_is_reported
           (examples_more.table_server examples_more.without_url)
           examples.format_4f examples.repr examples.strip
           (float 40) (float (-75)) []
           [("properties", JDict [("cwa", JStr "PHI")])]
           [("cwa", JStr "PHI")]
           eq_refl eq_refl eq_refl eq_refl).
Defined.

Lemma forecast_request_failure_is_reported_witness :
  in_range (float 40) (float (-75)) = true ∧
  get_forecast (examples_more.table_server examples_more.forecast_down)
    examples.format_4f examples.repr examples.strip (float 40) (float (-75)) []
  = (Return ("Failed to retrieve detailed forecast data: " +:+
             "Server error '500 Internal Server Error'"),
     [] ++ [point_endpoint examples.format_4f (float 40) (float (-75));
            examples.forecast_url]).
Proof.
  split; [reflexivity|].
  apply (forecast_request_failure_is_reported
           (examples_more.table_server examples_more.forecast_down)
           examples.format_4f examples.repr examples.strip
           (float 40) (float (-75)) []
           [("properties", JDict [("forecast", JStr examples.forecast_url)])]
           [("forecast", JStr examples.forecast_url)]);
    [reflexivity|reflexivity|reflexivity|reflexivity|discriminate|].
  right. eexists. reflexivity.
Defined.

Lemma no_periods_is_reported_witness :
  in_range (float 40) (float (-75)) = true ∧
  get_forecast (examples_more.table_server examples_more.without_periods)
    examples.format_4f examples.repr examples.strip (float 40) (float (-75)) []
  = (Return "No forecast periods found for this location.",
     [] ++ [point_endpoint examples.format_4f (float 40) (float (-75));
            examples.forecast_url]).
Proof.
  split; [reflexivity|].
  apply (no_periods_is_reported
           (examples_more.table_server examples_more.without_periods)
           examples.format_4f examples.repr examples.strip
           (float 40) (float (-75)) []
           [("properties", JDict [("forecast", JStr examples.forecast_url)])]
           [("forecast", JStr examples.forecast_url)]
           examples.forecast_url
           [("properties", JDict [("periods", JList [])])]
           [("periods", JList [])]);
    [reflexivity|reflexivity|reflexivity|reflexivity|discriminate
    |reflexivity|reflexivity|reflexivity].
Defined.

Lemma periods_after_the_fifth_are_ignored_witness :
  length examples_more.five_periods = 5 ∧
  get_forecast examples.server examples.format_4f examples.repr examples.strip
    (float 40) (float (-75)) []
  = (forecasts ← mapM (format_forecast_period examples.repr examples.strip)
                   examples_more.five_periods;
     mret (str_join (nl +:+ "---" +:+ nl) forecasts))
      ([] ++ [point_endpoint examples.format_4f (float 40) (float (-75));
              examples.forecast_url]).
Proof.
  split; [reflexivity|].
  apply (periods_after_the_fifth_are_ignored
           examples.server examples.format_4f examples.repr examples.strip
           (float 40) (float (-75)) []
           [("properties", JDict [("forecast", JStr examples.forecast_url)])]
           [("forecast", JStr examples.forecast_url)]
           examples.forecast_url
           [("properties", JDict [("periods", JList examples.six_periods)])]
           [("periods", JList examples.six_periods)]
           examples_more.five_periods
           [examples.period "Saturday Night" 54]);
    [reflexivity|reflexivity|reflexivity|reflexivity|discriminate
    |reflexivity|reflexivity|reflexivity|reflexivity].
Defined.

Lemma malformed_point_response_raises_witness :
  in_range (float 40) (float (-75)) = true ∧
  get_forecast (examples_more.table_server examples_more.not_json)
    examples.format_4f examples.repr examples.strip (float 40) (float (-75)) []
  = (Raise JSONDecodeError,
     [] ++ [point_endpoint examples.format_4f (float 40) (float (-75))]).
Proof.
  split; [reflexivity|].
  exact (malformed_point_response_raises
           (examples_more.table_server examples_more.not_json)
           examples.format_4f examples.repr examples.strip
           (float 40) (float (-75)) [] None eq_refl eq_refl).
Defined.

Lemma non_finite_coordinate_is_invalid_witness :
  not_finite S754_nan = true ∧
  get_forecast examples.server examples.format_4f examples.repr examples.strip
    S754_nan (float (-75)) []
  = (Return "Invalid latitude or longitude provided.", []) ∧
  get_forecast examples.server examples.format_4f examples.repr examples.strip
    (float (-75)) S754_nan []
  = (Return "Invalid latitude or longitude provided.", []).
Proof.
  split; [reflexivity|].
  exact (non_finite_coordinate_is_invalid
           examples.server examples.format_4f examples.repr examples.strip
           S754_nan (float (-75)) [] eq_refl).
Defined.

Lemma geocoding_failure_is_reported_witness :
  examples_more.geocode ("Atlantis" +:+ ", " +:+ "ZZ" +:+ ", USA") = Return None ∧
  get_forecast_by_city examples_more.geocode examples_more.exn_text
    (get_forecast examples.server examples.format_4f examples.repr examples.strip)
    "Atlantis" "ZZ" []
  = (Return ("Could not find coordinates for '" +:+ "Atlantis" +:+ ", " +:+
             "ZZ" +:+ "'."), []).
Proof.
  split; [reflexivity|].
  pose proof (geocoding_failure_is_reported examples_more.geocode
                examples_more.exn_text
                (get_forecast examples.server examples.format_4f
                   examples.repr examples.strip)
                "Atlantis" "ZZ" []) as [Hnone _].
  exact (Hnone eq_refl).
Defined.

End weather_tools_more.

(** * Properties of the lifespan of the Airbnb agent *)

Module airbnb_agent_main_props.

Import airbnb_agent_main.

Ltac run_lifespan :=
  unfold app_lifespan, try_finally, except_reraise, lift, set_item, print,
    print_stderr, clear, mbind, mret, M_bind, M_ret, bind, ret; simpl.

Section lifespan.

Context {client tool : Type}.

Variable new_client : result client.
Variable get_tools : client → result (list tool).
Variable exn_text : exn → string.

Abbreviation app_lifespan := (app_lifespan new_client get_tools exn_text).

(** X21. The context is empty when the block is left, on every path:
    whether the client or its tools could not be had, the body raised,
    or the body returned; entries that were there before are gone too. *)
Theorem lifespan_always_clears_context {A} (body : M app A) (s : app) :
  context (final (app_lifespan body) s) = ∅.
Proof.
  unfold final. run_lifespan.
  destruct new_client as [c|e]; simpl; [|done].
  destruct (get_tools c) as [tools|e]; simpl; [|done].
  by destruct (body _) as [[a|e] s'].
Qed.

(** X22. When the client cannot be made, or its tools cannot be had, the
    body does not run: the exception is printed on the error stream and
    raised again, after the two lines of the shutdown. *)
Theorem lifespan_init_failure {A} (body : M app A) (s : app) e :
  new_client = Raise e ∨ (∃ c, new_client = Return c ∧ get_tools c = Raise e) →
  app_lifespan body s
  = (Raise e,
     App ∅
       (stdout s ++ ["Lifespan: Initializing MCP client and tools..."]
          ++ ["Lifespan: Shutting down MCP client..."]
          ++ ["Lifespan: Clearing application context."])
       (stderr s ++ ["Lifespan: Error during initialization: " +:+ exn_text e])).
Proof.
  run_lifespan. intros [->|(c & -> & ->)]; simpl; by rewrite <- !app_assoc.
Qed.

(** X23. When the client and its tools are had, the body runs with both
    in the context, under [mcp_client] and [mcp_tools], after the line
    that counts the tools; the block gives what the body gives, and an
    exception of the body is printed as an initialization error before
    it is raised again. *)
Theorem lifespan_runs_body {A} (body : M app A) (s : app) c tools :
  new_client = Return c →
  get_tools c = Return tools →
  let started :=
    App (<["mcp_tools" := MCPTools tools]>
           (<["mcp_client" := MCPClient c]> (context s)))
        (stdout s ++ ["Lifespan: Initializing MCP client and tools..."]
           ++ ["Lifespan: MCP Tools preloaded successfully (" +:+
               pretty (length tools) +:+ " tools found)."])
        (stderr s) in
  let left := final body started in
  app_lifespan body s
  = (outcome body started,
     App ∅
       (stdout left ++ ["Lifespan: Shutting down MCP client..."]
          ++ ["Lifespan: Clearing application context."])
       (match outcome body started with
        | Return _ => stderr left
        | Raise e =>
            stderr left
              ++ ["Lifespan: Error during initialization: " +:+ exn_text e]
        end)).
Proof.
  intros Hc Ht started left. unfold left, started, outcome, final.
  run_lifespan. rewrite Hc. simpl. rewrite Ht. simpl.
  assert (tool_count tools = length tools) as ->.
  { unfold tool_count. by destruct tools. }
  rewrite <- !app_assoc. simpl.
  destruct (body _) as [[a|e] s']; simpl; by rewrite <- !app_assoc.
Qed.

Context {server : Type}.

Variable build : @object client tool → string → Z → string → result server.
Variable serve : server → M (@app client tool) unit.
Variable lower : string → string.

Abbreviation main := (main new_client get_tools exn_text build serve lower).

Lemma credentials_pass (environ : gmap string string) :
  environ !! "GOOGLE_GENAI_USE_VERTEXAI" = Some "TRUE" ∨
  (∃ key, environ !! "GOOGLE_API_KEY" = Some key ∧ key ≠ "") →
  negb (bool_decide (environ !! "GOOGLE_GENAI_USE_VERTEXAI" = Some "TRUE"))
  && not_set environ "GOOGLE_API_KEY" = false.
Proof.
  intros [Hv|(key & Hk & Hne)].
  - by rewrite bool_decide_eq_true_2.
  - unfold not_set. rewrite Hk.
    apply String.eqb_neq in Hne. rewrite Hne. apply andb_false_r.
Qed.

(** X24. [main] refuses to start without credentials: when
    [GOOGLE_GENAI_USE_VERTEXAI] is not exactly [TRUE] and
    [GOOGLE_API_KEY] is unset or empty, it raises its [ValueError] with
    nothing printed and the context untouched; in every other
    environment it does not raise it. *)
Theorem main_requires_credentials (environ : gmap string string)
    host port log_level s :
  (environ !! "GOOGLE_GENAI_USE_VERTEXAI" ≠ Some "TRUE" →
   environ !! "GOOGLE_API_KEY" = None ∨ environ !! "GOOGLE_API_KEY" = Some "" →
   main environ host port log_level s
   = (RaisesValueError
        ("GOOGLE_API_KEY environment variable not set and " +:+
         "GOOGLE_GENAI_USE_VERTEXAI is not TRUE."), s)) ∧
  (environ !! "GOOGLE_GENAI_USE_VERTEXAI" = Some "TRUE" ∨
   (∃ key, environ !! "GOOGLE_API_KEY" = Some key ∧ key ≠ "") →
   ∀ message,
     (main environ host port log_level s).1 ≠ RaisesValueError message).
Proof.
  unfold airbnb_agent_main.main. split.
  - intros Hv Hk. rewrite bool_decide_eq_false_2 by done.
    unfold not_set. by destruct Hk as [->| ->].
  - intros Hcred message. rewrite (credentials_pass _ Hcred).
    by destruct (run_server_async _ _ _ _ _ _ _ _ _ _) as [[[]|e] s'].
Qed.

(** X25. With credentials, when the MCP client cannot be made or its
    tools cannot be had, [main] builds and serves nothing: it prints the
    error twice on the error stream, once from the lifespan and once on
    its own, leaves the context empty and exits with status 1. *)
Theorem main_exits_when_startup_fails (environ : gmap string string)
    host port log_level s e :
  environ !! "GOOGLE_GENAI_USE_VERTEXAI" = Some "TRUE" ∨
  (∃ key, environ !! "GOOGLE_API_KEY" = Some key ∧ key ≠ "") →
  new_client = Raise e ∨ (∃ c, new_client = Return c ∧ get_tools c = Raise e) →
  main environ host port log_level s
  = (Exits 1,
     App ∅
       (stdout s ++ ["Lifespan: Initializing MCP client and tools..."]
          ++ ["Lifespan: Shutting down MCP client..."]
          ++ ["Lifespan: Clearing application context."])
       (stderr s
          ++ ["Lifespan: Error during initialization: " +:+ exn_text e]
          ++ ["An unexpected error occurred in main: " +:+ exn_text e])).
Proof.
  intros Hcred Hfail. unfold airbnb_agent_main.main.
  rewrite (credentials_pass _ Hcred). unfold run_server_async. run_lifespan.
  destruct Hfail as [->|(c & -> & ->)]; simpl; by rewrite <- !app_assoc.
Qed.

(** X26. With credentials, a client and its tools, [main] builds the
    server from exactly the tools that were preloaded and serves it
    after the line that announces it; when [serve] returns, [main]
    returns, and when [serve] raises, [main] exits with status 1 after
    printing the error twice; either way the line that the server has
    stopped comes before the shutdown of the lifespan, and the context
    is left empty. *)
Theorem main_serves_with_preloaded_tools (environ : gmap string string)
    host port log_level s c tools uvicorn_server :
  environ !! "GOOGLE_GENAI_USE_VERTEXAI" = Some "TRUE" ∨
  (∃ key, environ !! "GOOGLE_API_KEY" = Some key ∧ key ≠ "") →
  new_client = Return c →
  get_tools c = Return tools →
  build (MCPTools tools) host port (lower log_level) = Return uvicorn_server →
  let started :=
    App (<["mcp_tools" := MCPTools tools]>
           (<["mcp_client" := MCPClient c]> (context s)))
        (stdout s ++ ["Lifespan: Initializing MCP client and tools..."]
           ++ ["Lifespan: MCP Tools preloaded successfully (" +:+
               pretty (length tools) +:+ " tools found)."]
           ++ ["Starting Uvicorn server at http://" +:+ host +:+ ":" +:+
               pretty port +:+ " with log-level " +:+ log_level +:+ "..."])
        (stderr s) in
  let left := final (serve uvicorn_server) started in
  let printed :=
    stdout left ++ ["Uvicorn server has stopped."]
      ++ ["Lifespan: Shutting down MCP client..."]
      ++ ["Lifespan: Clearing application context."] in
  main environ host port log_level s
  = match outcome (serve uvicorn_server) started with
    | Return _ => (Returns, App ∅ printed (stderr left))
    | Raise e =>
        (Exits 1,
         App ∅ printed
           (stderr left
              ++ ["Lifespan: Error during initialization: " +:+ exn_text e]
              ++ ["An unexpected error occurred in main: " +:+ exn_text e]))
    end.
Proof.
  intros Hcred Hc Ht Hbuild started left printed.
  unfold printed, left, started, outcome, final, airbnb_agent_main.main.
  rewrite (credentials_pass _ Hcred). unfold run_server_async. run_lifespan.
  rewrite Hc. simpl. rewrite Ht. simpl.
  assert (tool_count tools = length tools) as ->.
  { unfold tool_count. by destruct tools. }
  rewrite lookup_insert_eq. simpl. rewrite Hbuild. simpl.
  rewrite <- !app_assoc. simpl.
  destruct (serve uvicorn_server _) as [[[]|e] s']; simpl;
    by rewrite <- !app_assoc.
Qed.

End lifespan.

(** *** The theorems at work on an example client *)

Lemma lifespan_init_failure_witness :
  (@Raise string examples_lifespan.no_npx
     = Raise examples_lifespan.no_npx ∨
   ∃ c, Raise examples_lifespan.no_npx = Return c ∧
        examples_lifespan.tools_of c = Raise examples_lifespan.no_npx) ∧
  airbnb_agent_main.app_lifespan (Raise examples_lifespan.no_npx)
    examples_lifespan.tools_of examples_more.exn_text
    examples_lifespan.serving examples_lifespan.before
  = (Raise examples_lifespan.no_npx,
     App ∅
       (stdout examples_lifespan.before
          ++ ["Lifespan: Initializing MCP client and tools..."]
          ++ ["Lifespan: Shutting down MCP client..."]
          ++ ["Lifespan: Clearing application context."])
       (stderr examples_lifespan.before
          ++ ["Lifespan: Error during initialization: " +:+
              examples_more.exn_text examples_lifespan.no_npx])).
Proof.
  assert (@Raise string examples_lifespan.no_npx
            = Raise examples_lifespan.no_npx ∨
          ∃ c, Raise examples_lifespan.no_npx = Return c ∧
               examples_lifespan.tools_of c
               = Raise examples_lifespan.no_npx) as Hfail
    by (left; reflexivity).
  split; [exact Hfail|].
  exact (lifespan_init_failure _ examples_lifespan.tools_of examples_more.exn_text
           examples_lifespan.serving examples_lifespan.before _ Hfail).
Defined.

Lemma lifespan_runs_body_witness :
  examples_lifespan.tools_of "bnb" = Return ["airbnb_search"; "airbnb_listing_details"] ∧
  outcome
    (airbnb_agent_main.app_lifespan (Return "bnb") examples_lifespan.tools_of
       examples_more.exn_text examples_lifespan.serving)
    examples_lifespan.before
  = Return 0 ∧
  final
    (airbnb_agent_main.app_lifespan (Return "bnb") examples_lifespan.tools_of
       examples_more.exn_text examples_lifespan.serving)
    examples_lifespan.before
  = App ∅
      ["Lifespan: Initializing MCP client and tools...";
       "Lifespan: MCP Tools preloaded successfully (2 tools found).";
       "Starting Uvicorn server";
       "Lifespan: Shutting down MCP client...";
       "Lifespan: Clearing application context."]
      [].
Proof.
  split; [reflexivity|].
  pose proof (lifespan_runs_body (Return "bnb") examples_lifespan.tools_of
                examples_more.exn_text examples_lifespan.serving
                examples_lifespan.before "bnb"
                ["airbnb_search"; "airbnb_listing_details"]
                eq_refl eq_refl) as Hw.
  unfold outcome, final. rewrite Hw. split; reflexivity.
Defined.

Lemma main_requires_credentials_witness :
  examples_lifespan.lower_case_flag !! "GOOGLE_GENAI_USE_VERTEXAI" ≠ Some "TRUE" ∧
  (examples_lifespan.lower_case_flag !! "GOOGLE_API_KEY" = None ∨
   examples_lifespan.lower_case_flag !! "GOOGLE_API_KEY" = Some "") ∧
  airbnb_agent_main.main (Return "bnb") examples_lifespan.tools_of
    examples_more.exn_text examples_lifespan.build examples_lifespan.serve
    examples_lifespan.lower examples_lifespan.lower_case_flag
    "0.0.0.0" 8080 "info" examples_lifespan.before
  = (RaisesValueError
       ("GOOGLE_API_KEY environment variable not set and " +:+
        "GOOGLE_GENAI_USE_VERTEXAI is not TRUE."), examples_lifespan.before).
Proof.
  assert (examples_lifespan.lower_case_flag !! "GOOGLE_GENAI_USE_VERTEXAI"
          ≠ Some "TRUE") as Hflag by (vm_compute; discriminate).
  assert (examples_lifespan.lower_case_flag !! "GOOGLE_API_KEY" = None ∨
          examples_lifespan.lower_case_flag !! "GOOGLE_API_KEY" = Some "")
    as Hkey by (right; reflexivity).
  split; [exact Hflag|]. split; [exact Hkey|].
  exact (proj1 (main_requires_credentials (Return "bnb")
                  examples_lifespan.tools_of examples_more.exn_text
                  examples_lifespan.build examples_lifespan.serve
                  examples_lifespan.lower examples_lifespan.lower_case_flag
                  "0.0.0.0" 8080 "info" examples_lifespan.before)
           Hflag Hkey).
Defined.

Lemma with_key_has_credentials :
  examples_lifespan.with_key !! "GOOGLE_GENAI_USE_VERTEXAI" = Some "TRUE" ∨
  (∃ key, examples_lifespan.with_key !! "GOOGLE_API_KEY" = Some key ∧ key ≠ "").
Proof. right. exists "secret". split; [reflexivity|discriminate]. Defined.

Lemma main_exits_when_startup_fails_witness :
  (examples_lifespan.with_key !! "GOOGLE_GENAI_USE_VERTEXAI" = Some "TRUE" ∨
   (∃ key, examples_lifespan.with_key !! "GOOGLE_API_KEY" = Some key ∧ key ≠ "")) ∧
  (airbnb_agent_main.main (Raise examples_lifespan.no_npx)
     examples_lifespan.tools_of examples_more.exn_text examples_lifespan.build
     examples_lifespan.serve examples_lifespan.lower examples_lifespan.with_key
     "0.0.0.0" 8080 "info" examples_lifespan.before).1
  = Exits 1.
Proof.
  split; [exact with_key_has_credentials|].
  rewrite (main_exits_when_startup_fails (Raise examples_lifespan.no_npx)
             examples_lifespan.tools_of examples_more.exn_text
             examples_lifespan.build examples_lifespan.serve
             examples_lifespan.lower examples_lifespan.with_key
             "0.0.0.0" 8080 "info" examples_lifespan.before
             examples_lifespan.no_npx with_key_has_credentials
             (or_introl eq_refl)).
  reflexivity.
Defined.

Lemma main_serves_with_preloaded_tools_witness :
  (examples_lifespan.with_key !! "GOOGLE_GENAI_USE_VERTEXAI" = Some "TRUE" ∨
   (∃ key, examples_lifespan.with_key !! "GOOGLE_API_KEY" = Some key ∧ key ≠ "")) ∧
  airbnb_agent_main.main (Return "bnb") examples_lifespan.tools_of
    examples_more.exn_text examples_lifespan.build examples_lifespan.serve
    examples_lifespan.lower examples_lifespan.with_key
    "0.0.0.0" 8080 "info" examples_lifespan.before
  = (Returns,
     App ∅
       ["Lifespan: Initializing MCP client and tools...";
        "Lifespan: MCP Tools preloaded successfully (2 tools found).";
        "Starting Uvicorn server at http://0.0.0.0:8080 with log-level info...";
        "serving on 0.0.0.0:8080";
        "Uvicorn server has stopped.";
        "Lifespan: Shutting down MCP client...";
        "Lifespan: Clearing application context."]
       []).
Proof.
  split; [exact with_key_has_credentials|].
  rewrite (main_serves_with_preloaded_tools (Return "bnb")
             examples_lifespan.tools_of examples_more.exn_text
             examples_lifespan.build examples_lifespan.serve
             examples_lifespan.lower examples_lifespan.with_key
             "0.0.0.0" 8080 "info" examples_lifespan.before
             "bnb" ["airbnb_search"; "airbnb_listing_details"] "0.0.0.0:8080"
             with_key_has_credentials eq_refl eq_refl eq_refl).
  reflexivity.
Defined.

End airbnb_agent_main_props.
